(** * Transcript extraction cascade of [html_unified.py]

    A shallow embedding of [TranscriptExtractor] (title extractor, the six
    content strategies, the cascade with its 500-character gate and the
    all-paragraphs fallback), together with the small part of Python's
    [str], [re] and of BeautifulSoup's tree and selector API that these
    methods call. *)

From Stdlib Require Import String Ascii.
From Stdlib Require Import List NArith Bool Arith Lia.
Import ListNotations.

Set Implicit Arguments.

(** ** Python strings

    A Python [str] is a sequence of Unicode code points; [len] counts code
    points.  A code point is an [N]. *)

Definition char := N.
Definition str := list char.

(** ASCII literals of the source are written [py "..."]. *)
Definition py (s : string) : str := map N_of_ascii (list_ascii_of_string s).

Definition quote : char := 34%N.       (* the double quote character *)
Definition backslash : char := 92%N.
Definition newline : char := 10%N.
Definition copyright_sign : char := 169%N.   (* U+00A9 *)

(** [s1 == s2] *)
Fixpoint str_eqb (a b : str) : bool :=
  match a, b with
  | [], [] => true
  | x :: a', y :: b' => N.eqb x y && str_eqb a' b'
  | _, _ => false
  end.

(** [str.isspace] on one code point: the code points Python treats as
    whitespace, shared by [str.strip()] and by [\s] in a [str] pattern. *)
Definition isspace (c : char) : bool :=
  ((9 <=? c) && (c <=? 13) || (28 <=? c) && (c <=? 32)
   || (c =? 133) || (c =? 160) || (c =? 5760)
   || (8192 <=? c) && (c <=? 8202)
   || (c =? 8232) || (c =? 8233) || (c =? 8239) || (c =? 8287)
   || (c =? 12288))%N.

Fixpoint lstrip (s : str) : str :=
  match s with
  | c :: s' => if isspace c then lstrip s' else s
  | [] => []
  end.

Definition rstrip (s : str) : str := rev (lstrip (rev s)).

(** [s.strip()] *)
Definition strip (s : str) : str := rstrip (lstrip s).

(** [s.startswith(x)] *)
Fixpoint startswith (x s : str) : bool :=
  match x, s with
  | [], _ => true
  | a :: x', b :: s' => N.eqb a b && startswith x' s'
  | _ :: _, [] => false
  end.

(** [x in s] for strings: [x] occurs in [s] as a contiguous run. *)
Fixpoint str_in (x s : str) : bool :=
  startswith x s ||
  match s with
  | [] => false
  | _ :: s' => str_in x s'
  end.

(** [x] occurs in [s], as a proposition. *)
Definition occurs_in (x s : str) : Prop :=
  exists pre post, s = pre ++ x ++ post.

(** [sep.join(parts)] *)
Fixpoint join (sep : str) (parts : list str) : str :=
  match parts with
  | [] => []
  | [p] => p
  | p :: rest => p ++ sep ++ join sep rest
  end.

(** The separator ["\n\n"] used by every strategy. *)
Definition blank_line : str := [newline; newline].

(** [s.replace(old, new)] for a non-empty [old]: occurrences are replaced
    from the left and do not overlap.  [skip] counts the code points of an
    occurrence that has just been replaced and are still to be passed. *)
Fixpoint replace_from (old new : str) (skip : nat) (s : str) : str :=
  match s with
  | [] => []
  | c :: s' =>
      match skip with
      | S n => replace_from old new n s'
      | O => if startswith old s
             then new ++ replace_from old new (length old - 1) s'
             else c :: replace_from old new 0 s'
      end
  end.

Definition replace (old new s : str) : str := replace_from old new 0 s.

(** [s.lower()].  Python lowercases code point by code point; ASCII capitals
    go to ASCII small letters and every other ASCII code point stays.  The
    mapping of a code point above U+007F comes from the Unicode tables (it
    may give several code points, and for U+03A3 it looks at the
    neighbours), so it is an argument here: it gets the code points before
    (nearest first), the code point and those after it. *)
Definition is_ascii (c : char) : bool := (c <? 128)%N.

Definition ascii_lower (c : char) : char :=
  if ((65 <=? c) && (c <=? 90))%N then (c + 32)%N else c.

Definition case_table := str -> char -> str -> str.

Fixpoint lower_from (tbl : case_table) (before : str) (s : str) : str :=
  match s with
  | [] => []
  | c :: s' =>
      (if is_ascii c then [ascii_lower c] else tbl before c s')
        ++ lower_from tbl (c :: before) s'
  end.

Definition lower (tbl : case_table) (s : str) : str := lower_from tbl [] s.

(** A table that leaves every code point above U+007F as it is. *)
Definition ascii_case_table : case_table := fun _ c _ => [c].

(** ** The part of [re] the extractor uses

    The five patterns of the source are built from literal text, one-character
    classes, greedy and lazy repetition of a one-character class and capturing
    groups.  Matching is Python's: leftmost, with backtracking in priority
    order (a greedy repetition tries the longest run first, a lazy one the
    shortest). *)

Inductive cset : Type :=
| CChar (c : char)          (* a literal character *)
| CAny                      (* [.] under [re.DOTALL] *)
| CNot (excluded : str)     (* a negated class such as [[^<:]] *)
| CSpace.                   (* [\s] *)

Inductive regex : Type :=
| One (c : cset)
| Rep (greedy : bool) (c : cset)      (* [c*] when greedy, [c*?] otherwise *)
| Seq (r1 r2 : regex)
| Grp (r : regex).                    (* a capturing group *)

(** Literal text. *)
Fixpoint lit (s : str) (rest : regex) : regex :=
  match s with
  | [] => rest
  | c :: s' => Seq (One (CChar c)) (lit s' rest)
  end.

(** [c+] *)
Definition plus (c : cset) : regex := Seq (One c) (Rep true c).

(** A pattern character against a text character under [re.IGNORECASE]: the
    text character is lowercased and compared with the lowercased pattern
    character.  Of the letters in the source's only such pattern
    ([<strong>], [</strong>]) one has a further equivalent outside ASCII:
    [s] also matches U+017F, the long s. *)
Definition ci_eqb (p x : char) : bool :=
  let p' := ascii_lower p in
  (N.eqb (ascii_lower x) p' || N.eqb p' 115 && N.eqb x 383)%bool.

Definition mem (x : char) (l : str) : bool := existsb (N.eqb x) l.

Definition cmatch (ignorecase : bool) (c : cset) (x : char) : bool :=
  match c with
  | CChar p => if ignorecase then ci_eqb p x else N.eqb p x
  | CAny => true
  | CNot excluded => negb (mem x excluded)
  | CSpace => isspace x
  end.

Section Matcher.
Variable ignorecase : bool.
Variable A : Type.

(** Greedy run of [c]: go as far as possible, then give back one character
    at a time until the rest of the pattern [k] matches. *)
Fixpoint rep_greedy (c : cset) (k : str -> option A) (s : str) : option A :=
  match s with
  | x :: s' =>
      if cmatch ignorecase c x then
        match rep_greedy c k s' with
        | Some v => Some v
        | None => k s
        end
      else k s
  | [] => k s
  end.

(** Lazy run of [c]: try the rest of the pattern first, take one more
    character only when it fails. *)
Fixpoint rep_lazy (c : cset) (k : str -> option A) (s : str) : option A :=
  match k s with
  | Some v => Some v
  | None =>
      match s with
      | x :: s' => if cmatch ignorecase c x then rep_lazy c k s' else None
      | [] => None
      end
  end.

(** [rx r s caps k]: match [r] at the start of [s]; on success hand the
    unread text and the groups captured so far to the continuation [k],
    whose failure makes the matcher backtrack. *)
Fixpoint rx (r : regex) (s : str) (caps : list str)
         (k : str -> list str -> option A) : option A :=
  match r with
  | One c =>
      match s with
      | x :: s' => if cmatch ignorecase c x then k s' caps else None
      | [] => None
      end
  | Rep true c => rep_greedy c (fun s' => k s' caps) s
  | Rep false c => rep_lazy c (fun s' => k s' caps) s
  | Seq r1 r2 => rx r1 s caps (fun s' caps' => rx r2 s' caps' k)
  | Grp r1 =>
      rx r1 s caps
         (fun s' caps' => k s' (caps' ++ [firstn (length s - length s') s]))
  end.
End Matcher.

(** A match at the very start of [s]: the captured groups and the unread
    text. *)
Definition match_here (ignorecase : bool) (r : regex) (s : str)
  : option (list str * str) :=
  rx ignorecase r s [] (fun s' caps => Some (caps, s')).

(** [pattern.search(s)]: the groups of the leftmost match. *)
Fixpoint search (ignorecase : bool) (r : regex) (s : str)
  : option (list str) :=
  match match_here ignorecase r s with
  | Some (caps, _) => Some caps
  | None =>
      match s with
      | [] => None
      | _ :: s' => search ignorecase r s'
      end
  end.

(** [pattern.findall(s)]: the groups of every match, left to right, matches
    not overlapping.  [skip] counts the characters of the last match still to
    be passed.  Every pattern of the source needs at least one character, so
    no match is tried on the empty rest. *)
Fixpoint findall_from (ignorecase : bool) (r : regex) (skip : nat) (s : str)
  : list (list str) :=
  match s with
  | [] => []
  | _ :: s' =>
      match skip with
      | S n => findall_from ignorecase r n s'
      | O =>
          match match_here ignorecase r s with
          | Some (caps, rest) =>
              caps :: findall_from ignorecase r
                                   (length s - length rest - 1) s'
          | None => findall_from ignorecase r 0 s'
          end
      end
  end.

Definition findall (ignorecase : bool) (r : regex) (s : str)
  : list (list str) :=
  findall_from ignorecase r 0 s.

(** [m.group(1)] and the unpacking of a two-group [findall] row. *)
Definition group1 (caps : list str) : str := nth 0 caps [].
Definition group2 (caps : list str) : str := nth 1 caps [].

(** ** The parsed document (BeautifulSoup)

    A tag has a name, attributes and contents; the contents are tags and
    strings.  Attribute values are strings, or lists of strings for the
    multi-valued attributes ([class]).  The [BeautifulSoup] object itself is
    a tag named ["[document]"]. *)

Inductive attr_value : Type :=
| AttrStr (v : str)
| AttrList (vs : list str).

#[warnings="-register-all"]
Inductive node : Type :=
| Tag (name : str) (attrs : list (str * attr_value)) (contents : list node)
| NavigableString (s : str)
| Comment (s : str).

Definition soup_of (contents : list node) : node :=
  Tag (py "[document]") [] contents.

Definition is_tag (n : node) : bool :=
  match n with Tag _ _ _ => true | _ => false end.

(** [tag.name] *)
Definition name_of (n : node) : str :=
  match n with Tag nm _ _ => nm | _ => [] end.

(** [tag.text]: the strings below the tag, concatenated in document order
    (comments are left out).  The tree has plain strings and comments only:
    the strings that bs4 keeps apart under [script], [style] and [template]
    elements, and leaves out of an enclosing tag's text, have no
    constructor, so a document is read here as one without them. *)
Fixpoint text (n : node) : str :=
  match n with
  | Tag _ _ contents => flat_map text contents
  | NavigableString s => s
  | Comment _ => []
  end.

(** [tag.get(key)] *)
Fixpoint get_attr (key : str) (attrs : list (str * attr_value))
  : option attr_value :=
  match attrs with
  | [] => None
  | (k, v) :: rest => if str_eqb k key then Some v else get_attr key rest
  end.

Definition attrs_of (n : node) : list (str * attr_value) :=
  match n with Tag _ a _ => a | _ => [] end.

(** [s.split()]: the maximal runs of non-whitespace characters. *)
Fixpoint split_ws_from (cur : str) (s : str) : list str :=
  match s with
  | [] => match cur with [] => [] | _ => [rev cur] end
  | c :: s' =>
      if isspace c
      then match cur with
           | [] => split_ws_from [] s'
           | _ => rev cur :: split_ws_from [] s'
           end
      else split_ws_from (c :: cur) s'
  end.

Definition split_ws (s : str) : list str := split_ws_from [] s.

(** The classes of an element and the string value of an attribute, as the
    selector engine reads them. *)
Definition classes_of (n : node) : list str :=
  match get_attr (py "class") (attrs_of n) with
  | Some (AttrList vs) => vs
  | Some (AttrStr v) => split_ws v
  | None => []
  end.

Definition attr_string (v : attr_value) : str :=
  match v with
  | AttrStr s => s
  | AttrList vs => join (py " ") vs
  end.

(** An element as the code holds it: the tag together with its place in the
    tree, which [.parent] and [.find_next_sibling()] read. *)
Record element : Type := {
  el : node;
  next_siblings : list node;         (* what follows it under its parent *)
  parent : node;
  parent_next_siblings : list node   (* what follows the parent *)
}.

(** The elements found under the contents [cs] of the tag [p]: each tag of
    [cs] with its place, followed by what is below it, left to right.
    [below] lists what is under one node. *)
Section Walk.
Variable p : node.
Variable after : list node.
Variable below : node -> list node -> list element.

Fixpoint walk (cs : list node) : list element :=
  match cs with
  | [] => []
  | c :: rest =>
      (if is_tag c
       then [ {| el := c; next_siblings := rest;
                 parent := p; parent_next_siblings := after |} ]
       else [])
        ++ below c rest ++ walk rest
  end.
End Walk.

(** The elements strictly below [n], in document order.  [after] is what
    follows [n] under its own parent. *)
Fixpoint descendants (n : node) (after : list node) : list element :=
  match n with
  | Tag _ _ contents => walk n after descendants contents
  | _ => []
  end.

(** ** CSS selectors

    A compound selector is a list of simple selectors that must all hold; a
    selector is a comma-separated group of compounds, any of which may
    hold.  Two corners of the selector library are outside the model: an
    attribute test is plain equality (the library also accepts a value with
    one more newline at its end), and [:contains] reads the same text as
    [tag.text] (the library also reads script strings and passes over the
    content of an [iframe]). *)

Inductive simple : Type :=
| SType (t : str)                 (* [h1] *)
| SClass (c : str)                (* [.title] *)
| SId (i : str)                   (* [#a-body] *)
| SAttr (a v : str)               (* [[data-id='sa-transcript']] *)
| SContains (needle : str).       (* [:contains('Q&A')] *)

Definition compound := list simple.
Definition selector := list compound.

Definition match_simple (s : simple) (n : node) : bool :=
  match s with
  | SType t => str_eqb (name_of n) t
  | SClass c => existsb (str_eqb c) (classes_of n)
  | SId i =>
      match get_attr (py "id") (attrs_of n) with
      | Some v => str_eqb (attr_string v) i
      | None => false
      end
  | SAttr a v =>
      match get_attr a (attrs_of n) with
      | Some w => str_eqb (attr_string w) v
      | None => false
      end
  | SContains needle => str_in needle (text n)
  end.

Definition match_compound (c : compound) (n : node) : bool :=
  forallb (fun s => match_simple s n) c.

Definition matches (sel : selector) (n : node) : bool :=
  existsb (fun c => match_compound c n) sel.

(** [tag.select(sel)]: every matching element below the tag, in document
    order. *)
Definition select_in (sel : selector) (n : node) (after : list node)
  : list element :=
  filter (fun e => matches sel (el e)) (descendants n after).

Definition select (sel : selector) (soup : node) : list element :=
  select_in sel soup [].

(** [tag.select_one(sel)] *)
Definition select_one (sel : selector) (soup : node) : option element :=
  hd_error (select sel soup).

(** [elem.text.strip()] *)
Definition stripped_text (e : element) : str := strip (text (el e)).

(** The tags met by calling [find_next_sibling()] again and again. *)
Definition next_sibling_tags (e : element) : list node :=
  filter is_tag (next_siblings e).

(** ** [TranscriptExtractor] *)

Record TranscriptExtractor : Type := { debug : bool }.

Definition quoted (s : str) : str := quote :: s ++ [quote].

(** [len(x) > n] *)
Definition longer_than (n : nat) (x : str) : bool := n <? length x.

(** The test [if content and len(content) > 500] of the cascade. *)
Definition passes_gate (content : str) : bool :=
  negb (str_eqb content []) && longer_than 500 content.

Definition title_selectors : list selector :=
  [ [[SType (py "h1")]];
    [[SType (py "h1"); SClass (py "title")]];
    [[SAttr (py "data-test-id") (py "post-title")]];
    [[SClass (py "title")]] ].

Fixpoint first_match_text (soup : node) (sels : list selector)
         (sentinel : str) : str :=
  match sels with
  | [] => sentinel
  | sel :: rest =>
      match select_one sel soup with
      | Some elem => stripped_text elem
      | None => first_match_text soup rest sentinel
      end
  end.

Definition extract_title (self : TranscriptExtractor) (soup : node) : str :=
  first_match_text soup title_selectors (py "Title not found").

(** *** Strategy 1: transcript sections, then the Q&A anchor *)

Definition transcript_section_selector : selector :=
  [ [SClass (py "transcript-section")];
    [SClass (py "transcript-text")];
    [SClass (py "sa-transcript")];
    [SAttr (py "data-id") (py "sa-transcript")];
    [SAttr (py "id") (py "sa-transcript")] ].

Definition qa_selector : selector :=
  [ [SType (py "strong"); SContains (py "Question-and-Answer")];
    [SType (py "h2"); SContains (py "Q&A")];
    [SType (py "h3"); SContains (py "Questions and Answers")] ].

Definition is_div_or_section (n : node) : bool :=
  str_eqb (name_of n) (py "div") || str_eqb (name_of n) (py "section").

(** The loop over [current_section]: it starts at the parent of the first
    Q&A marker and moves on with [find_next_sibling()]. *)
Definition qa_walk (anchor : element) : list node :=
  parent anchor :: filter is_tag (parent_next_siblings anchor).

Definition qa_content_parts (anchor : element) : list str :=
  map (fun n => strip (text n)) (filter is_div_or_section (qa_walk anchor)).

Definition extract_transcript_sections (self : TranscriptExtractor)
           (soup : node) : str :=
  match select transcript_section_selector soup with
  | (_ :: _) as transcript_sections =>
      join blank_line (map stripped_text transcript_sections)
  | [] =>
      match select qa_selector soup with
      | anchor :: _ =>
          match qa_content_parts anchor with
          | (_ :: _) as content_parts => join blank_line content_parts
          | [] => []
          end
      | [] => []
      end
  end.

(** *** Strategy 2: content containers *)

Definition container_selectors : list selector :=
  [ [[SType (py "div"); SAttr (py "data-test-id") (py "content-container")]];
    [[SClass (py "paywall-content")]];
    [[SId (py "content-container")]];
    [[SClass (py "sa-art")]];
    [[SType (py "article"); SClass (py "sa-content")]];
    [[SClass (py "article-content")]];
    [[SId (py "a-body")]];
    [[SType (py "div"); SClass (py "media-article-content")]] ].

Definition p_selector : selector := [[SType (py "p")]].

Definition premium_phrase : str := py "Make the most of Premium".

Definition denylist : list str :=
  [ py "disclosure:"; py "disclosure :"; [copyright_sign];
    py "all rights reserved"; py "seeking alpha"; py "editor's note";
    py "make the most of premium" ].

(** What one found container does to the loop. *)
Inductive container_outcome : Type :=
| Skipped                 (* the [continue] of the premium-message test *)
| NothingKept             (* no paragraph, or none that passes the filter *)
| Extracted (content : str).

Section Extractor.
Variable tbl : case_table.

(** The test that lets a paragraph text into [filtered_paragraphs]. *)
Definition keeps_paragraph (p_text : str) : bool :=
  negb (str_eqb p_text []) && longer_than 20 p_text
  && negb (existsb (fun x => str_in x (lower tbl p_text)) denylist).

Definition premium_message_only (container : element) : bool :=
  str_in premium_phrase (text (el container))
  && (length (text (el container)) <? 100).

Definition filtered_paragraphs (container : element) : list str :=
  filter keeps_paragraph
         (map stripped_text
              (select_in p_selector (el container)
                         (next_siblings container))).

Definition try_container (container : element) : container_outcome :=
  if premium_message_only container then Skipped
  else match filtered_paragraphs container with
       | (_ :: _) as kept => Extracted (join blank_line kept)
       | [] => NothingKept
       end.

Fixpoint containers_loop (soup : node) (sels : list selector) : str :=
  match sels with
  | [] => []
  | sel :: rest =>
      match select_one sel soup with
      | Some container =>
          match try_container container with
          | Extracted content => content
          | Skipped | NothingKept => containers_loop soup rest
          end
      | None => containers_loop soup rest
      end
  end.

Definition extract_from_content_containers (self : TranscriptExtractor)
           (soup : node) : str :=
  containers_loop soup container_selectors.
End Extractor.

(** *** Strategy 3: paragraphs after a transcript header *)

Definition header_selector : selector :=
  [ [SType (py "h2"); SContains (py "Transcript")];
    [SType (py "h2"); SContains (py "Earnings Call")];
    [SType (py "h3"); SContains (py "Transcript")];
    [SType (py "h3"); SContains (py "Earnings Call")] ].

Definition extract_after_header_patterns (self : TranscriptExtractor)
           (soup : node) : str :=
  match select header_selector soup with
  | header :: _ =>
      match map (fun n => strip (text n))
                (filter (fun n => str_eqb (name_of n) (py "p"))
                        (next_sibling_tags header)) with
      | (_ :: _) as paragraphs => join blank_line paragraphs
      | [] => []
      end
  | [] => []
  end.

(** *** Strategy 4: JSON fragments in script blocks *)

(** [<script[^>]*>(.*?)</script>] with [re.DOTALL] *)
Definition script_pattern : regex :=
  lit (py "<script")
      (Seq (Rep true (CNot (py ">")))
           (lit (py ">")
                (Seq (Grp (Rep false CAny))
                     (lit (py "</script") (One (CChar 62%N)))))).

(** An opening brace, [[^}]*], the quoted word transcript, [[^}]*], a closing
    brace. *)
Definition json_pattern : regex :=
  lit (py "{")
      (Seq (Rep true (CNot (py "}")))
           (lit (quoted (py "transcript"))
                (Seq (Rep true (CNot (py "}"))) (One (CChar 125%N))))).

(** The quoted key, [\s*:\s*], then a quoted value without quote characters,
    captured: the shape of [content_pattern] and [text_pattern]. *)
Definition key_value_pattern (key : str) : regex :=
  lit (quoted key)
      (Seq (Rep true CSpace)
           (lit (py ":")
                (Seq (Rep true CSpace)
                     (lit [quote]
                          (Seq (Grp (Rep true (CNot [quote])))
                               (One (CChar quote))))))).

Definition content_pattern : regex := key_value_pattern (py "content").
Definition text_pattern : regex := key_value_pattern (py "text").

(** The two [replace] calls: backslash-quote becomes a quote, then
    backslash-n becomes a newline. *)
Definition unescape (s : str) : str :=
  replace [backslash; 110%N] [newline]
          (replace [backslash; quote] [quote] s).

Fixpoint scripts_loop (script_matches : list str) : str :=
  match script_matches with
  | [] => []
  | script :: rest =>
      match search false json_pattern script with
      | Some _ =>
          match search false content_pattern script with
          | Some content_match => unescape (group1 content_match)
          | None =>
              match search false text_pattern script with
              | Some text_match => unescape (group1 text_match)
              | None => scripts_loop rest
              end
          end
      | None => scripts_loop rest
      end
  end.

Definition script_blocks (html_content : str) : list str :=
  map group1 (findall false script_pattern html_content).

Definition extract_from_scripts (self : TranscriptExtractor)
           (html_content : str) : str :=
  scripts_loop (script_blocks html_content).

(** *** Strategy 5: long preformatted blocks *)

Definition pre_selector : selector := [[SType (py "pre")]].

Definition extract_from_pre_elements (self : TranscriptExtractor)
           (soup : node) : str :=
  match filter (longer_than 500)
               (map stripped_text (select pre_selector soup)) with
  | (_ :: _) as pre_texts => join blank_line pre_texts
  | [] => []
  end.

(** *** Strategy 6: speaker lines in the raw markup *)

(** [<strong>([^<:]+):</strong>([^<]+)] with [re.IGNORECASE] *)
Definition speaker_pattern : regex :=
  lit (py "<strong>")
      (Seq (Grp (plus (CNot (py "<:"))))
           (lit (py ":</strong>") (Grp (plus (CNot (py "<")))))).

Definition speaker_matches (html_content : str) : list (list str) :=
  findall true speaker_pattern html_content.

(** The formatted line: stripped speaker, colon, space, stripped text. *)
Definition speaker_line (m : list str) : str :=
  strip (group1 m) ++ py ": " ++ strip (group2 m).

Definition extract_transcript_pattern (self : TranscriptExtractor)
           (html_content : str) : str :=
  let matches := speaker_matches html_content in
  if 10 <? length matches
  then join blank_line (map speaker_line matches)
  else [].

(** *** The cascade *)

Inductive strategy : Type :=
| TranscriptSections      (* extract_transcript_sections *)
| ContentContainers       (* extract_from_content_containers *)
| HeaderPatterns          (* extract_after_header_patterns *)
| Scripts                 (* extract_from_scripts *)
| PreElements             (* extract_from_pre_elements *)
| TranscriptPattern.      (* extract_transcript_pattern *)


(** Which [return] of [extract_content] produced the content. *)
Inductive source : Type :=
| FromStrategy (st : strategy)
| FromFallback
| FromSentinel.

(** Computations that record, in order, the strategies they call. *)
Definition logged (A : Type) : Type := (list strategy * A)%type.

Definition ret {A : Type} (x : A) : logged A := ([], x).

Definition bind {A B : Type} (m : logged A) (f : A -> logged B) : logged B :=
  let (l1, a) := m in
  let (l2, b) := f a in
  (l1 ++ l2, b).

Definition value_of {A : Type} (m : logged A) : A := snd m.

Notation "x <- m ;; k" := (bind m (fun x => k))
  (at level 61, m at next level, right associativity).

Definition content_failed : str := py "Content extraction failed".

Section Cascade.
Variable tbl : case_table.
Variable self : TranscriptExtractor.

Definition run_strategy (st : strategy) (soup : node) (html_content : str)
  : str :=
  match st with
  | TranscriptSections => extract_transcript_sections self soup
  | ContentContainers => extract_from_content_containers tbl self soup
  | HeaderPatterns => extract_after_header_patterns self soup
  | Scripts => extract_from_scripts self html_content
  | PreElements => extract_from_pre_elements self soup
  | TranscriptPattern => extract_transcript_pattern self html_content
  end.

(** The last resort: every paragraph of the document. *)
Definition all_paragraphs_fallback (soup : node) : str :=
  match select p_selector soup with
  | (_ :: _) as all_paragraphs =>
      join blank_line
           (filter (longer_than 20) (map stripped_text all_paragraphs))
  | [] => content_failed
  end.

Definition extract_content (soup : node) (html_content : str) : str :=
  let content := extract_transcript_sections self soup in
  if passes_gate content then content else
  let content := extract_from_content_containers tbl self soup in
  if passes_gate content then content else
  let content := extract_after_header_patterns self soup in
  if passes_gate content then content else
  let content := extract_from_scripts self html_content in
  if passes_gate content then content else
  let content := extract_from_pre_elements self soup in
  if passes_gate content then content else
  let content := extract_transcript_pattern self html_content in
  if passes_gate content then content else
  all_paragraphs_fallback soup.

(** The same method, with every strategy call recorded and the taken
    [return] named. *)
Definition call (st : strategy) (soup : node) (html_content : str)
  : logged str :=
  ([st], run_strategy st soup html_content).

Definition extract_content_logged (soup : node) (html_content : str)
  : logged (source * str) :=
  content <- call TranscriptSections soup html_content ;;
  if passes_gate content
  then ret (FromStrategy TranscriptSections, content) else
  content <- call ContentContainers soup html_content ;;
  if passes_gate content
  then ret (FromStrategy ContentContainers, content) else
  content <- call HeaderPatterns soup html_content ;;
  if passes_gate content
  then ret (FromStrategy HeaderPatterns, content) else
  content <- call Scripts soup html_content ;;
  if passes_gate content
  then ret (FromStrategy Scripts, content) else
  content <- call PreElements soup html_content ;;
  if passes_gate content
  then ret (FromStrategy PreElements, content) else
  content <- call TranscriptPattern soup html_content ;;
  if passes_gate content
  then ret (FromStrategy TranscriptPattern, content) else
  match select p_selector soup with
  | _ :: _ => ret (FromFallback, all_paragraphs_fallback soup)
  | [] => ret (FromSentinel, content_failed)
  end.
End Cascade.

(** *** The other metadata extractors and the record of [extract_from_file] *)

Definition date_selectors : list selector :=
  [ [[SType (py "time")]];
    [[SAttr (py "data-test-id") (py "post-date")]];
    [[SClass (py "post-date")]];
    [[SClass (py "sa-art-date")]] ].

Definition author_selectors : list selector :=
  [ [[SAttr (py "data-test-id") (py "author-name")]];
    [[SClass (py "author-link")]];
    [[SClass (py "author-name")]] ].

Definition extract_date (self : TranscriptExtractor) (soup : node) : str :=
  first_match_text soup date_selectors (py "Date not found").

Definition extract_author (self : TranscriptExtractor) (soup : node) : str :=
  first_match_text soup author_selectors (py "Author not found").

Record ExtractionResult : Type := {
  title : str;
  date : str;
  author : str;
  content : str
}.

Section Document.
Variable tbl : case_table.

(** [BeautifulSoup(html_content, 'html.parser')]: the parser is a library
    function of the markup alone and is not modelled further. *)
Variable BeautifulSoup : str -> node.

(** [extract_from_file], from the point where the file has been read. *)
Definition extract_from_html (self : TranscriptExtractor)
           (html_content : str) : ExtractionResult :=
  let soup := BeautifulSoup html_content in
  {| title := extract_title self soup;
     date := extract_date self soup;
     author := extract_author self soup;
     content := extract_content tbl self soup html_content |}.
End Document.

(** ** Readings of the specification that are compared with the code *)

(** The title as the specification words it: the first selector, in order,
    whose match has a non-empty trimmed text gives the title; the sentinel
    when there is none. *)
Fixpoint title_first_nonempty (soup : node) (sels : list selector) : str :=
  match sels with
  | [] => py "Title not found"
  | sel :: rest =>
      match select_one sel soup with
      | Some elem =>
          match stripped_text elem with
          | [] => title_first_nonempty soup rest
          | t => t
          end
      | None => title_first_nonempty soup rest
      end
  end.

(** The Q&A collection as the specification words it: the [div] and
    [section] elements among the following siblings of the marker itself. *)
Definition qa_following_siblings (anchor : element) : list str :=
  map (fun n => strip (text n))
      (filter is_div_or_section (next_sibling_tags anchor)).

(** [tag.contents] *)
Definition contents_of (n : node) : list node :=
  match n with Tag _ _ cs => cs | _ => [] end.

(** ** Places in the tree *)

(** Induction on a node, with the property known for every node of the
    contents of a tag. *)
Fixpoint node_induction (P : node -> Prop)
         (HTag : forall name attrs contents,
             Forall P contents -> P (Tag name attrs contents))
         (HStr : forall s, P (NavigableString s))
         (HCom : forall s, P (Comment s))
         (n : node) : P n :=
  match n with
  | Tag name attrs contents =>
      HTag name attrs contents
           ((fix all (cs : list node) : Forall P cs :=
               match cs with
               | [] => Forall_nil P
               | c :: rest =>
                   Forall_cons c (node_induction HTag HStr HCom c) (all rest)
               end) contents)
  | NavigableString s => HStr s
  | Comment s => HCom s
  end.

(** The place recorded with an element is its place: it is a tag, and the
    contents of its parent are what comes before it, the element and its
    following siblings. *)
Definition well_placed (e : element) : Prop :=
  is_tag (el e) = true
  /\ exists before,
      contents_of (parent e) = before ++ el e :: next_siblings e.

(** ** Sample documents *)

Definition an_extractor : TranscriptExtractor := {| debug := false |}.

Definition elem (name : string) (attrs : list (str * attr_value))
           (contents : list node) : node :=
  Tag (py name) attrs contents.

Definition txt (s : string) : node := NavigableString (py s).

Definition class_ (c : string) : str * attr_value :=
  (py "class", AttrList [py c]).

(** [<p>hi</p>] *)
Definition short_paragraph_doc : node := soup_of [elem "p" [] [txt "hi"]].
Definition short_paragraph_html : str := py "<p>hi</p>".

(** [<h1></h1><div class="title">Quarterly results</div>] *)
Definition empty_heading_doc : node :=
  soup_of [ elem "h1" [] [];
            elem "div" [class_ "title"] [txt "Quarterly results"] ].

(** [<div><h2>Q&A</h2>Operator opens the call</div><div>First answer</div>] *)
Definition qa_doc : node :=
  soup_of [ elem "div" [] [ elem "h2" [] [txt "Q&A"];
                            txt "Operator opens the call" ];
            elem "div" [] [txt "First answer"] ].

(** Two transcript blocks, each longer than 300 characters:
    [<div class="sa-transcript">Block A...</div>] and the same for B. *)
Definition block_a : str := py "Block A" ++ repeat 97%N 300.
Definition block_b : str := py "Block B" ++ repeat 98%N 300.

Definition two_block_doc : node :=
  soup_of [ elem "div" [class_ "sa-transcript"] [NavigableString block_a];
            elem "div" [class_ "sa-transcript"] [NavigableString block_b] ].

Definition two_block_html : str :=
  py "<div class=" ++ quoted (py "sa-transcript") ++ py ">" ++ block_a
     ++ py "</div><div class=" ++ quoted (py "sa-transcript") ++ py ">"
     ++ block_b ++ py "</div>".

(** The marker of [qa_doc] with its place. *)
Definition qa_anchor : element :=
  {| el := elem "h2" [] [txt "Q&A"];
     next_siblings := [txt "Operator opens the call"];
     parent := elem "div" [] [ elem "h2" [] [txt "Q&A"];
                               txt "Operator opens the call" ];
     parent_next_siblings := [elem "div" [] [txt "First answer"]] |}.

(** A paywall teaser of 95 characters, alone in its container, and the same
    container with two real paragraphs after the teaser. *)
Definition teaser : string :=
  "Make the most of Premium with unlimited access to every earnings call transcript and our notes.".



Definition long_container_node : node :=
  elem "div" [class_ "paywall-content"]
       [ txt teaser;
         elem "p" [] [txt "Good morning and welcome to the quarterly call."];
         elem "p" [] [txt "Read more on Seeking Alpha about this company."];
         elem "p" [] [txt "  Revenue grew eleven percent year over year.  "] ].

Definition long_container : element :=
  {| el := long_container_node;
     next_siblings := [];
     parent := soup_of [long_container_node];
     parent_next_siblings := [] |}.

Definition long_container_doc : node := parent long_container.

(** A page whose first script block has no transcript data and whose second
    one has it, with an escaped newline and a tab escape in the content. *)
Definition state_script : str :=
  py "window.state = {" ++ quoted (py "transcript") ++ py ": true, "
     ++ quoted (py "content") ++ py " : "
     ++ quoted (py "Operator: Good day." ++ [backslash; 110%N]
                   ++ py "CEO: Thanks" ++ [backslash; 116%N] ++ py "all.")
     ++ py ", " ++ quoted (py "text") ++ py ":" ++ quoted (py "unused")
     ++ py "};".

Definition script_html : str :=
  py "<html><script src='a.js'></script><script>" ++ state_script
     ++ py "</script><script>" ++ py "var later = 1;" ++ py "</script></html>".

(** *** Markup made of speaker segments

    [<strong>Name:</strong>text], one after the other, for the boundary
    cases of the speaker-pattern strategy. *)

Definition speaker_markup (seg : str * str) : str :=
  py "<strong>" ++ fst seg ++ py ":</strong>" ++ snd seg.

Definition speakers_markup (segs : list (str * str)) : str :=
  flat_map speaker_markup segs.

(** A segment whose name and text are what the two groups of the pattern
    accept: not empty, no [<], and no colon in the name. *)
Definition speaker_segment_ok (seg : str * str) : Prop :=
  fst seg <> []
  /\ Forall (fun x => cmatch true (CNot (py "<:")) x = true) (fst seg)
  /\ snd seg <> []
  /\ Forall (fun x => cmatch true (CNot (py "<")) x = true) (snd seg).

Definition segment_line (seg : str * str) : str :=
  strip (fst seg) ++ py ": " ++ strip (snd seg).

(** What ends a greedy run of [c]: the end of the text or a character
    outside [c]. *)
Definition stops (ignorecase : bool) (c : cset) (s : str) : Prop :=
  match s with
  | [] => True
  | x :: _ => cmatch ignorecase c x = false
  end.

(** Eleven speakers, and the first ten of them. *)
Definition eleven_speakers : list (str * str) :=
  map (fun n => (py "Analyst " ++ [(65 + N.of_nat n)%N], py " Thank you. "))
      (seq 0 11).

Definition ten_speakers : list (str * str) := firstn 10 eleven_speakers.

(** ** The rest of [html_unified.py]: [process_directory] *)

(** The test of [process_directory] that counts a file as extracted:
    [len(result['content']) > 500 and "Make the most of Premium" not in
    result['content']], with the double quotes of the source. *)
Definition content_is_meaningful (content : str) : bool :=
  longer_than 500 content && negb (str_in premium_phrase content).

Section Directory.
Variable tbl : case_table.
Variable BeautifulSoup : str -> node.

(** The loop of [process_directory] over the texts of the files, in the
    order of the listing: the records written and the files counted. *)
Fixpoint process_files (self : TranscriptExtractor) (html_files : list str)
         (success_count : nat) : list ExtractionResult * nat :=
  match html_files with
  | [] => ([], success_count)
  | html_content :: rest =>
      let result := extract_from_html tbl BeautifulSoup self html_content in
      let success_count :=
        if content_is_meaningful (content result)
        then S success_count else success_count in
      let (results, total) := process_files self rest success_count in
      (result :: results, total)
  end.

Definition process_directory (self : TranscriptExtractor)
           (html_files : list str) : list ExtractionResult * nat :=
  process_files self html_files 0.
End Directory.

(** ** The cascade of [unified.py] and [transcript-extractor.py]

    [extract_transcript_content] of [unified.py] and [extract_content] of
    [transcript-extractor.py] are the same code: four strategies and a
    filtered fallback.  None of these methods reads [self]. *)

Definition unified_section_selector : selector :=
  [ [SClass (py "transcript-section")];
    [SClass (py "transcript-text")];
    [SClass (py "sa-transcript")] ].

Definition extract_from_transcript_sections (soup : node) : str :=
  match select unified_section_selector soup with
  | (_ :: _) as transcript_sections =>
      join blank_line (map stripped_text transcript_sections)
  | [] => []
  end.

Definition unified_container_selectors : list selector :=
  [ [[SType (py "div"); SAttr (py "data-test-id") (py "content-container")]];
    [[SClass (py "paywall-content")]];
    [[SClass (py "sa-art")]];
    [[SType (py "article"); SClass (py "sa-content")]];
    [[SClass (py "article-content")]];
    [[SId (py "a-body")]] ].

(** Only the content pattern is tried here. *)
Fixpoint unified_scripts_loop (script_matches : list str) : str :=
  match script_matches with
  | [] => []
  | script :: rest =>
      match search false json_pattern script with
      | Some _ =>
          match search false content_pattern script with
          | Some content_match => unescape (group1 content_match)
          | None => unified_scripts_loop rest
          end
      | None => unified_scripts_loop rest
      end
  end.

Definition unified_extract_from_scripts (html_content : str) : str :=
  unified_scripts_loop (script_blocks html_content).

Definition extract_from_speaker_patterns (html_content : str) : str :=
  let matches := speaker_matches html_content in
  if 10 <? length matches
  then join blank_line (map speaker_line matches)
  else [].

Section Unified.
Variable tbl : case_table.

Definition unified_extract_from_content_containers (soup : node) : str :=
  containers_loop tbl soup unified_container_selectors.

(** Method 5 of the sibling cascade: the paragraphs of the whole document
    through the filter of the containers, the sentinel when none is kept. *)
Definition unified_fallback (soup : node) : str :=
  match select p_selector soup with
  | (_ :: _) as all_paragraphs =>
      match filter (keeps_paragraph tbl)
                   (map stripped_text all_paragraphs) with
      | (_ :: _) as filtered => join blank_line filtered
      | [] => content_failed
      end
  | [] => content_failed
  end.

Definition extract_transcript_content (soup : node) (html_content : str)
  : str :=
  let content := extract_from_transcript_sections soup in
  if passes_gate content then content else
  let content := unified_extract_from_content_containers soup in
  if passes_gate content then content else
  let content := unified_extract_from_scripts html_content in
  if passes_gate content then content else
  let content := extract_from_speaker_patterns html_content in
  if passes_gate content then content else
  unified_fallback soup.
End Unified.

(** The validation of [extract_single_transcript] in [unified.py]:
    [len(content) < 500 or (the premium phrase in content and
    len(content) < 1000)]. *)
Definition content_may_be_incomplete (content : str) : bool :=
  (length content <? 500)
  || (str_in premium_phrase content && (length content <? 1000)).

(** ** File names of the downloaders

    [''.join(c if c.isalnum() else '_' for c in title)] and
    [f"{safe_title[:50]}.html"], in [content-downloader.py],
    [transcript-extractor.py], [play.py] and [seekingalpha_scraper.py]. *)

(** [c.isalnum()]: for ASCII the digits and the letters; above U+007F the
    Unicode tables decide, an argument here. *)
Definition ascii_isalnum (c : char) : bool :=
  ((48 <=? c) && (c <=? 57) || (65 <=? c) && (c <=? 90)
   || (97 <=? c) && (c <=? 122))%N.

Definition alnum_table := char -> bool.

Definition isalnum (tbl : alnum_table) (c : char) : bool :=
  if is_ascii c then ascii_isalnum c else tbl c.

Definition underscore : char := 95%N.

Definition safe_title (tbl : alnum_table) (title : str) : str :=
  map (fun c => if isalnum tbl c then c else underscore) title.

Definition html_filename (tbl : alnum_table) (title : str) : str :=
  firstn 50 (safe_title tbl title) ++ py ".html".

(** [seekingalpha_scraper.py] replaces an empty [safe_title] by
    [article_<seconds>]; [stamp] is the rendered [int(time.time())]. *)
Definition scraper_safe_title (tbl : alnum_table) (stamp : str)
           (title : str) : str :=
  match safe_title tbl title with
  | [] => py "article_" ++ stamp
  | t => t
  end.

(** ** Page addresses of the link collectors

    [link-collector.py] and [seekingalpha_scraper.py] build the address of
    a page of the author's list from the author address. *)

(** [s.split(c)[0]]: what comes before the first [c]. *)
Fixpoint before_char (c : char) (s : str) : str :=
  match s with
  | [] => []
  | x :: s' => if N.eqb x c then [] else x :: before_char c s'
  end.

Fixpoint uint_digits (d : Decimal.uint) : str :=
  match d with
  | Decimal.Nil => []
  | Decimal.D0 d' => 48%N :: uint_digits d'
  | Decimal.D1 d' => 49%N :: uint_digits d'
  | Decimal.D2 d' => 50%N :: uint_digits d'
  | Decimal.D3 d' => 51%N :: uint_digits d'
  | Decimal.D4 d' => 52%N :: uint_digits d'
  | Decimal.D5 d' => 53%N :: uint_digits d'
  | Decimal.D6 d' => 54%N :: uint_digits d'
  | Decimal.D7 d' => 55%N :: uint_digits d'
  | Decimal.D8 d' => 56%N :: uint_digits d'
  | Decimal.D9 d' => 57%N :: uint_digits d'
  end.

(** [str(n)] for a natural number. *)
Definition str_of_nat (n : nat) : str := uint_digits (Nat.to_uint n).

Definition question_mark : char := 63%N.

Definition page_url (author_url : str) (current_page : nat) : str :=
  if str_in [question_mark] author_url
  then before_char question_mark author_url
         ++ py "?page=" ++ str_of_nat current_page
  else author_url ++ py "?page=" ++ str_of_nat current_page.

(** An article whose container holds one long paragraph and one line of
    boilerplate. *)
Definition long_paragraph : str :=
  py "Operator: Good day and welcome to the call. " ++ repeat 97%N 520.

Definition article_doc : node :=
  soup_of [ elem "div" [class_ "paywall-content"]
                 [ elem "p" [] [NavigableString long_paragraph];
                   elem "p" [] [txt "Read more on Seeking Alpha today."] ] ].

(** ** Facts about the string functions *)

Lemma str_eqb_eq (a b : str) : str_eqb a b = true <-> a = b.
Proof.
  revert b; induction a as [|x a IH]; intros [|y b]; simpl;
    try (split; [discriminate | congruence]); try tauto.
  rewrite andb_true_iff, N.eqb_eq, IH.
  split; [intros [-> ->]; reflexivity | intros H; inversion H; auto].
Qed.

Lemma str_eqb_refl (a : str) : str_eqb a a = true.
Proof. apply str_eqb_eq; reflexivity. Qed.

Lemma longer_than_iff (n : nat) (x : str) :
  longer_than n x = true <-> n < length x.
Proof. unfold longer_than; apply Nat.ltb_lt. Qed.

Lemma passes_gate_iff (content : str) :
  passes_gate content = true <-> 500 < length content.
Proof.
  unfold passes_gate.
  rewrite andb_true_iff, longer_than_iff.
  destruct content; simpl; [lia | intuition].
Qed.

Lemma passes_gate_false (content : str) :
  passes_gate content = false <-> length content <= 500.
Proof.
  destruct (passes_gate content) eqn:G.
  - apply passes_gate_iff in G; split; [discriminate | lia].
  - split; [intros _ | reflexivity].
    destruct (Nat.le_gt_cases (length content) 500) as [|L]; [assumption|].
    apply passes_gate_iff in L; congruence.
Qed.

(** ** The cascade *)



(** C2.  On the document [<p>hi</p>] no strategy passes the gate and the
    all-paragraphs fallback keeps nothing (the only paragraph has two
    characters), yet the cascade returns the empty string and not the
    sentinel: the fallback tests the list of paragraphs before it is
    filtered. *)
Theorem extract_content_empty_on_short_paragraph
        (tbl : case_table) (self : TranscriptExtractor) :
  extract_content tbl self short_paragraph_doc short_paragraph_html = []
  /\ filter (longer_than 20)
            (map stripped_text (select p_selector short_paragraph_doc)) = []
  /\ (forall st,
        length (run_strategy tbl self st short_paragraph_doc
                             short_paragraph_html) <= 500).
Proof.
  split; [reflexivity|].
  split; [reflexivity|].
  intros []; vm_compute; lia.
Qed.

(** C3.  When the transcript-section selector matches at least one element
    and the join of the matched elements' trimmed texts (in document order,
    blank line between them) is longer than 500 characters, the cascade
    returns exactly that join. *)
Theorem transcript_sections_verbatim
        (tbl : case_table) (self : TranscriptExtractor)
        (soup : node) (html_content : str) :
  let sections := select transcript_section_selector soup in
  sections <> [] ->
  500 < length (join blank_line (map stripped_text sections)) ->
  extract_content tbl self soup html_content
  = join blank_line (map stripped_text sections).
Proof.
  intros sections Hne Hlen.
  assert (E : extract_transcript_sections self soup
              = join blank_line (map stripped_text sections)).
  { unfold extract_transcript_sections. fold sections.
    destruct sections; [contradiction | reflexivity]. }
  unfold extract_content.
  rewrite E.
  apply passes_gate_iff in Hlen.
  rewrite Hlen.
  reflexivity.
Qed.


(** ** Substrings *)

Lemma startswith_iff (x s : str) :
  startswith x s = true <-> exists post, s = x ++ post.
Proof.
  revert s; induction x as [|a x IH]; intros s; simpl.
  - split; [intros _; exists s; reflexivity | reflexivity].
  - destruct s as [|b s].
    + split; [discriminate | intros [post E]; discriminate E].
    + rewrite andb_true_iff, N.eqb_eq, IH.
      split.
      * intros [-> [post ->]]; exists post; reflexivity.
      * intros [post E]; inversion E; subst; split; [reflexivity|].
        exists post; reflexivity.
Qed.

Lemma str_in_iff (x s : str) : str_in x s = true <-> occurs_in x s.
Proof.
  unfold occurs_in.
  induction s as [|c s IH].
  - simpl. rewrite orb_false_r, startswith_iff.
    split.
    + intros [post E]; exists [], post; exact E.
    + intros [pre [post E]].
      destruct pre; [exists post; exact E | discriminate E].
  - cbn [str_in]. rewrite orb_true_iff, startswith_iff, IH.
    split.
    + intros [[post E] | [pre [post E]]].
      * exists [], post; exact E.
      * exists (c :: pre), post; rewrite E; reflexivity.
    + intros [pre [post E]].
      destruct pre as [|d pre].
      * left; exists post; exact E.
      * right; inversion E; subst; exists pre, post; reflexivity.
Qed.

(** ** The matcher on speaker segments *)

Lemma cmatch_same (ic : bool) (c : char) : cmatch ic (CChar c) c = true.
Proof.
  destruct ic; simpl; [|apply N.eqb_refl].
  unfold ci_eqb. rewrite N.eqb_refl. reflexivity.
Qed.

Lemma rx_lit (A : Type) (ic : bool) (w : str) (r : regex) (s : str)
      (caps : list str) (k : str -> list str -> option A) :
  rx ic (lit w r) (w ++ s) caps k = rx ic r s caps k.
Proof.
  induction w as [|c w IH]; cbn [lit rx app]; [reflexivity|].
  rewrite cmatch_same. exact IH.
Qed.

Lemma rep_greedy_longest (A : Type) (ic : bool) (c : cset)
      (k : str -> option A) (u s : str) (v : A) :
  Forall (fun x => cmatch ic c x = true) u ->
  stops ic c s -> k s = Some v -> rep_greedy ic c k (u ++ s) = Some v.
Proof.
  intros Hu Hs Hk.
  induction Hu as [|x u Hx Hu IH]; cbn [app rep_greedy].
  - destruct s as [|y s]; [exact Hk|].
    cbn [stops] in Hs. cbn [rep_greedy]. rewrite Hs. exact Hk.
  - rewrite Hx, IH. reflexivity.
Qed.

Lemma firstn_length_app (u s : str) :
  firstn (length (u ++ s) - length s) (u ++ s) = u.
Proof.
  rewrite length_app, Nat.add_sub.
  rewrite firstn_app, Nat.sub_diag, firstn_all. simpl. apply app_nil_r.
Qed.

Lemma match_here_segment (seg : str * str) (rest : str) :
  speaker_segment_ok seg -> stops true (CNot (py "<")) rest ->
  match_here true speaker_pattern (speaker_markup seg ++ rest)
  = Some ([fst seg; snd seg], rest).
Proof.
  destruct seg as [n t]. intros (Hn & Fn & Ht & Ft) Hrest.
  cbn [fst snd] in *.
  unfold match_here, speaker_pattern, speaker_markup. cbn [fst snd].
  rewrite <- !app_assoc.
  rewrite rx_lit.
  destruct n as [|x n]; [contradiction|].
  destruct t as [|y t]; [contradiction|].
  inversion Fn as [|? ? Hx Fn']; subst.
  inversion Ft as [|? ? Hy Ft']; subst.
  cbn [rx plus].
  cbn [app]. rewrite Hx.
  erewrite rep_greedy_longest; [reflexivity | exact Fn' | reflexivity |].
  rewrite rx_lit.
  cbn [rx app plus]. rewrite Hy.
  erewrite rep_greedy_longest; [reflexivity | exact Ft' | exact Hrest |].
  cbn [app].
  change (x :: n ++ py ":</strong>" ++ y :: t ++ rest)
    with ((x :: n) ++ py ":</strong>" ++ y :: t ++ rest).
  change (y :: t ++ rest) with ((y :: t) ++ rest) at 3 4.
  rewrite !firstn_length_app.
  reflexivity.
Qed.

Lemma findall_from_skip (ic : bool) (r : regex) (u s : str) :
  findall_from ic r (length u) (u ++ s) = findall_from ic r 0 s.
Proof.
  induction u as [|c u IH]; [reflexivity | exact IH].
Qed.

(** On markup made of well-formed segments the pattern finds exactly the
    segments, in order. *)
Lemma speaker_matches_segments (segs : list (str * str)) :
  Forall speaker_segment_ok segs ->
  speaker_matches (speakers_markup segs)
  = map (fun seg => [fst seg; snd seg]) segs.
Proof.
  unfold speaker_matches, findall.
  induction 1 as [|seg segs Hseg Hsegs IH]; [reflexivity|].
  cbn [speakers_markup flat_map map].
  assert (Hstop : stops true (CNot (py "<")) (speakers_markup segs)).
  { destruct segs; [exact I | reflexivity]. }
  pose proof (@match_here_segment seg (speakers_markup segs) Hseg Hstop) as M.
  remember (speaker_markup seg) as w eqn:Ew.
  destruct w as [|c w]; [discriminate Ew|].
  cbn [app findall_from].
  cbn [app] in M. unfold speakers_markup in *. rewrite M.
  f_equal.
  replace (length (c :: w ++ flat_map speaker_markup segs)
           - length (flat_map speaker_markup segs) - 1)
    with (length w) by (cbn [length]; rewrite length_app; lia).
  rewrite findall_from_skip. exact IH.
Qed.

(** ** The speaker-pattern strategy *)

(** C4.  The speaker-pattern strategy returns the empty string when the
    pattern has 10 matches or fewer in the raw markup; with 11 matches or
    more it returns one line per match, stripped speaker, colon, space,
    stripped text, in the order of the matches, joined by blank lines.  On
    markup made of well-formed speaker segments the matches are the segments
    in document order, so ten segments give the empty string and eleven give
    the eleven lines. *)
Theorem speaker_pattern_threshold (self : TranscriptExtractor) :
  (forall html_content,
      length (speaker_matches html_content) <= 10 ->
      extract_transcript_pattern self html_content = [])
  /\ (forall html_content,
        11 <= length (speaker_matches html_content) ->
        extract_transcript_pattern self html_content
        = join blank_line (map speaker_line (speaker_matches html_content))
        /\ length (map speaker_line (speaker_matches html_content))
           = length (speaker_matches html_content))
  /\ (forall segs,
        Forall speaker_segment_ok segs ->
        (length segs = 10 ->
         extract_transcript_pattern self (speakers_markup segs) = [])
        /\ (length segs = 11 ->
            extract_transcript_pattern self (speakers_markup segs)
            = join blank_line (map segment_line segs))).
Proof.
  unfold extract_transcript_pattern.
  split; [|split].
  - intros html_content H.
    apply Nat.ltb_ge in H. rewrite H. reflexivity.
  - intros html_content H.
    assert (L : 10 < length (speaker_matches html_content)) by lia.
    apply Nat.ltb_lt in L. rewrite L.
    split; [reflexivity | apply length_map].
  - intros segs Hsegs.
    rewrite (speaker_matches_segments Hsegs), length_map, map_map.
    split; intros ->; reflexivity.
Qed.

(** ** The title *)

Lemma first_match_text_found (soup : node) (sentinel : str)
      (before : list selector) (sel : selector) (after : list selector)
      (found : element) :
  Forall (fun s => select s soup = []) before ->
  select_one sel soup = Some found ->
  first_match_text soup (before ++ sel :: after) sentinel
  = stripped_text found.
Proof.
  intros Hbefore Hsel.
  induction Hbefore as [|s before Hs _ IH]; cbn [app first_match_text].
  - rewrite Hsel. reflexivity.
  - unfold select_one at 1. rewrite Hs. exact IH.
Qed.

Lemma first_match_text_none (soup : node) (sentinel : str)
      (sels : list selector) :
  Forall (fun s => select s soup = []) sels ->
  first_match_text soup sels sentinel = sentinel.
Proof.
  induction 1 as [|s sels Hs _ IH]; cbn [first_match_text]; [reflexivity|].
  unfold select_one. rewrite Hs. exact IH.
Qed.

(** C8, as the code has it.  [extract_title] goes through its four
    selectors in order; the first selector that matches any element decides:
    the result is the trimmed text of its first match in document order,
    empty or not.  The sentinel is returned when no selector matches any
    element. *)
Theorem extract_title_first_match
        (self : TranscriptExtractor) (soup : node) :
  (forall before sel after found,
      title_selectors = before ++ sel :: after ->
      Forall (fun s => select s soup = []) before ->
      select_one sel soup = Some found ->
      extract_title self soup = strip (text (el found)))
  /\ (Forall (fun s => select s soup = []) title_selectors ->
      extract_title self soup = py "Title not found").
Proof.
  unfold extract_title.
  split.
  - intros before sel after found -> Hbefore Hsel.
    apply first_match_text_found; assumption.
  - apply first_match_text_none.
Qed.

(** C8, as the specification words it, fails on
    [<h1></h1><div class="title">Quarterly results</div>]: the heading is
    matched first and its empty text is returned, where the wording asks for
    the first non-empty text ("Quarterly results"). *)
Lemma extract_title_returns_empty_match :
  extract_title an_extractor empty_heading_doc = []
  /\ title_first_nonempty empty_heading_doc title_selectors
     = py "Quarterly results"
  /\ extract_title an_extractor empty_heading_doc
     <> title_first_nonempty empty_heading_doc title_selectors.
Proof.
  split; [reflexivity|].
  split; [reflexivity|].
  vm_compute. discriminate.
Qed.

(** ** The recorded places are the places *)

Lemma walk_well_placed (p : node) (after : list node)
      (below : node -> list node -> list element) (cs : list node) :
  (forall c rest e, In c cs -> In e (below c rest) -> well_placed e) ->
  forall before,
    contents_of p = before ++ cs ->
    forall e, In e (walk p after below cs) -> well_placed e.
Proof.
  induction cs as [|c rest IH]; intros Hbelow before Hp e He.
  - contradiction.
  - cbn [walk] in He.
    apply in_app_or in He. destruct He as [He | He].
    + destruct (is_tag c) eqn:Hc; [|contradiction].
      destruct He as [<- | []].
      split; [exact Hc | exists before; exact Hp].
    + apply in_app_or in He. destruct He as [He | He].
      * apply (Hbelow c rest e); [left; reflexivity | exact He].
      * apply (IH (fun c' r' e' Hc' => Hbelow c' r' e' (or_intror Hc'))
                  (before ++ [c])); [|exact He].
        rewrite <- app_assoc. exact Hp.
Qed.

Lemma descendants_well_placed (n : node) :
  forall after e, In e (descendants n after) -> well_placed e.
Proof.
  induction n as [name attrs contents IH | s | s] using node_induction;
    intros after e He; try contradiction.
  cbn [descendants] in He.
  apply (@walk_well_placed (Tag name attrs contents) after descendants
                           contents) with (before := []); [|reflexivity|exact He].
  intros c rest e' Hc He'.
  rewrite Forall_forall in IH.
  exact (IH c Hc rest e' He').
Qed.

Lemma select_well_placed (sel : selector) (soup : node) (e : element) :
  In e (select sel soup) -> well_placed e.
Proof.
  unfold select, select_in. intros He.
  apply filter_In in He. destruct He as [He _].
  exact (descendants_well_placed soup [] e He).
Qed.

(** ** The Q&A anchor of strategy 1 *)

(** C10, as the code has it.  When no transcript-section marker matches and
    a Q&A marker does, the strategy starts at the parent of the first marker
    (the element that holds the marker) and goes on through the tags that
    follow that parent; it joins, with blank lines, the trimmed texts of
    those that are [div] or [section], in document order. *)
Theorem qa_walk_starts_at_parent
        (self : TranscriptExtractor) (soup : node)
        (anchor : element) (more : list element) :
  select transcript_section_selector soup = [] ->
  select qa_selector soup = anchor :: more ->
  extract_transcript_sections self soup
  = join blank_line
         (map (fun n => strip (text n))
              (filter is_div_or_section
                      (parent anchor
                       :: filter is_tag (parent_next_siblings anchor))))
  /\ exists before,
      contents_of (parent anchor)
      = before ++ el anchor :: next_siblings anchor.
Proof.
  intros Hnone Hqa.
  split.
  - unfold extract_transcript_sections.
    rewrite Hnone, Hqa.
    unfold qa_content_parts, qa_walk.
    destruct (map _ _); reflexivity.
  - assert (H : well_placed anchor).
    { apply (@select_well_placed qa_selector soup).
      rewrite Hqa. left. reflexivity. }
    exact (proj2 H).
Qed.

(** C10, as the specification words it, fails on
    [<div><h2>Q&A</h2>Operator opens the call</div><div>First answer</div>]:
    the marker [h2] has no following sibling element, so its following
    siblings give nothing, while the code returns the text of the [div] that
    holds the marker and of the [div] after it. *)
Lemma qa_walk_includes_enclosing_container :
  select transcript_section_selector qa_doc = []
  /\ (exists anchor more,
         select qa_selector qa_doc = anchor :: more
         /\ qa_following_siblings anchor = []
         /\ extract_transcript_sections an_extractor qa_doc
            <> join blank_line (qa_following_siblings anchor))
  /\ extract_transcript_sections an_extractor qa_doc
     = py "Q&AOperator opens the call" ++ blank_line ++ py "First answer".
Proof.
  split; [reflexivity|].
  split; [|reflexivity].
  eexists. eexists.
  split; [reflexivity|].
  split; [reflexivity|].
  vm_compute. discriminate.
Qed.

(** ** Stripping and lowercasing around a word *)

(** A word that [strip] cannot cut into: it starts and ends with a
    character that is not whitespace. *)
Lemma lstrip_keeps (w : str) (pre post : str) :
  match w with c :: _ => isspace c = false | [] => False end ->
  exists pre', lstrip (pre ++ w ++ post) = pre' ++ w ++ post.
Proof.
  intros Hw.
  induction pre as [|x pre IH].
  - exists []. destruct w as [|c w]; [contradiction|].
    cbn [app lstrip]. rewrite Hw. reflexivity.
  - cbn [app lstrip].
    destruct (isspace x).
    + exact IH.
    + exists (x :: pre). reflexivity.
Qed.

Lemma strip_keeps (w : str) (pre post : str) :
  match w with c :: _ => isspace c = false | [] => False end ->
  match rev w with c :: _ => isspace c = false | [] => False end ->
  exists pre' post', strip (pre ++ w ++ post) = pre' ++ w ++ post'.
Proof.
  intros Hfirst Hlast.
  unfold strip, rstrip.
  destruct (lstrip_keeps w pre post Hfirst) as [pre' ->].
  rewrite !rev_app_distr, <- app_assoc.
  destruct (lstrip_keeps (rev w) (rev post) (rev pre') Hlast) as [post' ->].
  exists pre', (rev post').
  rewrite !rev_app_distr, !rev_involutive, <- app_assoc.
  reflexivity.
Qed.

Lemma lower_from_ascii (tbl : case_table) (w : str) :
  forallb is_ascii w = true ->
  forall before post,
    lower_from tbl before (w ++ post)
    = map ascii_lower w ++ lower_from tbl (rev w ++ before) post.
Proof.
  induction w as [|c w IH]; intros Hw before post; [reflexivity|].
  cbn [forallb] in Hw. apply andb_true_iff in Hw. destruct Hw as [Hc Hw].
  cbn [app lower_from map rev]. rewrite Hc.
  rewrite (IH Hw), <- app_assoc.
  reflexivity.
Qed.

Lemma lower_occurs (tbl : case_table) (w : str) (pre post : str) :
  forallb is_ascii w = true ->
  occurs_in (map ascii_lower w) (lower tbl (pre ++ w ++ post)).
Proof.
  intros Hw. unfold lower.
  generalize (@nil char) as before.
  induction pre as [|x pre IH]; intros before.
  - cbn [app]. rewrite (lower_from_ascii tbl w Hw).
    exists [], (lower_from tbl (rev w ++ before) post). reflexivity.
  - cbn [app lower_from].
    destruct (IH (x :: before)) as [l [r E]]. rewrite E.
    eexists (_ ++ l), r. rewrite <- app_assoc. reflexivity.
Qed.

(** ** The paragraph filter of strategy 2 *)

Lemma keeps_paragraph_iff (tbl : case_table) (p_text : str) :
  keeps_paragraph tbl p_text = true
  <-> 20 < length p_text
      /\ forall x, In x denylist -> ~ occurs_in x (lower tbl p_text).
Proof.
  unfold keeps_paragraph.
  rewrite !andb_true_iff, !negb_true_iff, longer_than_iff.
  split.
  - intros [[_ Hlen] Hdeny]. split; [exact Hlen|].
    intros x Hx Hocc. apply str_in_iff in Hocc.
    assert (E : existsb (fun x => str_in x (lower tbl p_text)) denylist
                = true).
    { apply existsb_exists. exists x. split; assumption. }
    exact (eq_true_false_abs _ E Hdeny).
  - intros [Hlen Hdeny]. split; [split; [|exact Hlen]|].
    + destruct p_text; [simpl in Hlen; lia | reflexivity].
    + destruct (existsb _ denylist) eqn:E; [|reflexivity].
      apply existsb_exists in E. destruct E as [x [Hx Hin]].
      apply str_in_iff in Hin. elim (Hdeny x Hx Hin).
Qed.

(** A paragraph text that holds a denylisted phrase in any mix of ASCII
    capitals and small letters is dropped. *)
Lemma keeps_paragraph_denied (tbl : case_table) (w : str) (pre post : str) :
  forallb is_ascii w = true ->
  In (map ascii_lower w) denylist ->
  match w with c :: _ => isspace c = false | [] => False end ->
  match rev w with c :: _ => isspace c = false | [] => False end ->
  keeps_paragraph tbl (strip (pre ++ w ++ post)) = false.
Proof.
  intros Hascii Hdeny Hfirst Hlast.
  destruct (strip_keeps w pre post Hfirst Hlast) as [pre' [post' ->]].
  destruct (keeps_paragraph tbl (pre' ++ w ++ post')) eqn:K; [|reflexivity].
  apply keeps_paragraph_iff in K. destruct K as [_ K].
  elim (K _ Hdeny). apply lower_occurs. exact Hascii.
Qed.

(** C6.  A paragraph of a container that is not skipped is kept exactly when
    its trimmed text is longer than 20 characters and the lowercased trimmed
    text holds none of the seven denylisted phrases.  The test is on the
    lowercased text, so a paragraph holding SEEKING ALPHA is dropped like one
    holding seeking alpha, whatever stands around the phrase. *)
Theorem paragraph_filter (tbl : case_table) :
  (forall container p,
      In p (select_in p_selector (el container) (next_siblings container)) ->
      (In (stripped_text p) (filtered_paragraphs tbl container)
       <-> 20 < length (stripped_text p)
           /\ forall x, In x denylist ->
                        ~ occurs_in x (lower tbl (stripped_text p))))
  /\ (forall pre post,
        keeps_paragraph tbl (strip (pre ++ py "SEEKING ALPHA" ++ post)) = false
        /\ keeps_paragraph tbl (strip (pre ++ py "seeking alpha" ++ post))
           = false).
Proof.
  split.
  - intros container p Hp.
    unfold filtered_paragraphs.
    rewrite filter_In, keeps_paragraph_iff.
    split; [intros [_ H]; exact H | intros H; split; [|exact H]].
    apply in_map. exact Hp.
  - intros pre post.
    split; apply keeps_paragraph_denied; try reflexivity;
      vm_compute; tauto.
Qed.

(** ** The premium-message test of strategy 2 *)



(** ** The script strategy *)

Lemma scripts_loop_skips (before rest : list str) :
  Forall (fun b => search false json_pattern b = None) before ->
  scripts_loop (before ++ rest) = scripts_loop rest.
Proof.
  induction 1 as [|b before Hb _ IH]; cbn [app scripts_loop];
    [reflexivity|].
  rewrite Hb. exact IH.
Qed.

Lemma replace_from_unchanged (a : char) (old new s : str) :
  ~ In a s -> replace_from (a :: old) new 0 s = s.
Proof.
  induction s as [|c s IH]; intros Hs; [reflexivity|].
  cbn [replace_from startswith].
  destruct (N.eqb_spec a c) as [-> | _].
  - elim Hs. left. reflexivity.
  - cbn [andb]. f_equal. apply IH.
    intros H. apply Hs. right. exact H.
Qed.

Lemma unescape_unchanged (s : str) : ~ In backslash s -> unescape s = s.
Proof.
  intros Hs. unfold unescape, replace.
  rewrite (@replace_from_unchanged backslash [quote] [quote] s Hs).
  apply replace_from_unchanged. exact Hs.
Qed.

(** C9.  Take the first script block in which the transcript pattern is
    found.  When the content pattern is found in that block, the strategy
    returns its captured value; when it is not and the text pattern is, the
    strategy returns that one's captured value; in both cases after the two
    replacements (backslash-quote by a quote, then backslash-n by a newline)
    and nothing else, so that a value without a backslash is returned as it
    is.  Later blocks are not looked at. *)
Theorem scripts_first_match
        (self : TranscriptExtractor) (html_content : str)
        (before : list str) (script : str) (after : list str) :
  script_blocks html_content = before ++ script :: after ->
  Forall (fun b => search false json_pattern b = None) before ->
  search false json_pattern script <> None ->
  (forall m,
      search false content_pattern script = Some m ->
      extract_from_scripts self html_content
      = replace [backslash; 110%N] [newline]
                (replace [backslash; quote] [quote] (group1 m))
      /\ (~ In backslash (group1 m) ->
          extract_from_scripts self html_content = group1 m))
  /\ (search false content_pattern script = None ->
      forall m,
        search false text_pattern script = Some m ->
        extract_from_scripts self html_content
        = replace [backslash; 110%N] [newline]
                  (replace [backslash; quote] [quote] (group1 m))
        /\ (~ In backslash (group1 m) ->
            extract_from_scripts self html_content = group1 m)).
Proof.
  intros Hblocks Hbefore Hjson.
  unfold extract_from_scripts.
  rewrite Hblocks, (scripts_loop_skips _ Hbefore).
  cbn [scripts_loop].
  destruct (search false json_pattern script) as [j|]; [|contradiction].
  split.
  - intros m Hm. rewrite Hm.
    split; [reflexivity|].
    intros Hb. apply unescape_unchanged. exact Hb.
  - intros Hnone m Hm. rewrite Hnone, Hm.
    split; [reflexivity|].
    intros Hb. apply unescape_unchanged. exact Hb.
Qed.

(** ** The theorems at work on the sample documents *)


Lemma transcript_sections_verbatim_witness :
  extract_content ascii_case_table an_extractor two_block_doc two_block_html
  = block_a ++ blank_line ++ block_b.
Proof.
  rewrite (transcript_sections_verbatim ascii_case_table an_extractor
                                        two_block_doc two_block_html).
  - vm_compute. reflexivity.
  - vm_compute. discriminate.
  - apply Nat.ltb_lt. vm_compute. reflexivity.
Defined.

Lemma eleven_speakers_ok : Forall speaker_segment_ok eleven_speakers.
Proof.
  repeat constructor; try discriminate.
Qed.

Lemma speaker_pattern_threshold_witness :
  extract_transcript_pattern an_extractor (speakers_markup ten_speakers) = []
  /\ extract_transcript_pattern an_extractor (speakers_markup eleven_speakers)
     = join blank_line (map segment_line eleven_speakers)
  /\ length (map segment_line eleven_speakers) = 11.
Proof.
  split; [|split].
  - apply (proj1 (speaker_pattern_threshold an_extractor)).
    apply Nat.leb_le. vm_compute. reflexivity.
  - apply (proj2 (proj2 (speaker_pattern_threshold an_extractor))
                 eleven_speakers eleven_speakers_ok).
    reflexivity.
  - reflexivity.
Defined.


Lemma paragraph_filter_witness :
  keeps_paragraph ascii_case_table
     (strip (py "  Read more on " ++ py "SEEKING ALPHA"
                ++ py " about this company.  ")) = false
  /\ keeps_paragraph ascii_case_table
       (strip (py "  Read more on " ++ py "seeking alpha"
                  ++ py " about this company.  ")) = false.
Proof.
  exact (proj2 (paragraph_filter ascii_case_table)
               (py "  Read more on ") (py " about this company.  ")).
Defined.

Lemma extract_title_first_match_witness :
  extract_title an_extractor empty_heading_doc = [].
Proof.
  rewrite (proj1 (extract_title_first_match an_extractor empty_heading_doc)
                 [] [[SType (py "h1")]] (tl title_selectors)
                 {| el := elem "h1" [] [];
                    next_siblings :=
                      [elem "div" [class_ "title"] [txt "Quarterly results"]];
                    parent := empty_heading_doc;
                    parent_next_siblings := [] |}).
  - reflexivity.
  - reflexivity.
  - constructor.
  - reflexivity.
Defined.

Lemma scripts_first_match_witness :
  extract_from_scripts an_extractor script_html
  = py "Operator: Good day." ++ [newline] ++ py "CEO: Thanks"
       ++ [backslash; 116%N] ++ py "all.".
Proof.
  rewrite (proj1 (proj1 (@scripts_first_match
                    an_extractor script_html [[]] state_script
                    [py "var later = 1;"]
                    ltac:(vm_compute; reflexivity)
                    ltac:(repeat constructor)
                    ltac:(vm_compute; discriminate))
                 [py "Operator: Good day." ++ [backslash; 110%N]
                     ++ py "CEO: Thanks" ++ [backslash; 116%N] ++ py "all."]
                 ltac:(vm_compute; reflexivity))).
  vm_compute. reflexivity.
Defined.

Lemma qa_walk_starts_at_parent_witness :
  extract_transcript_sections an_extractor qa_doc
  = py "Q&AOperator opens the call" ++ blank_line ++ py "First answer".
Proof.
  rewrite (proj1 (@qa_walk_starts_at_parent an_extractor qa_doc qa_anchor []
                    ltac:(reflexivity) ltac:(reflexivity))).
  reflexivity.
Defined.

(** ** Lengths of joins *)

Lemma join_cons_length (sep p : str) (rest : list str) :
  length p <= length (join sep (p :: rest)).
Proof.
  destruct rest; cbn [join]; [lia|].
  rewrite length_app. lia.
Qed.

Lemma join_nil_iff (sep : str) (parts : list str) :
  sep <> [] ->
  (join sep parts = [] <-> parts = [] \/ parts = [[]]).
Proof.
  intros Hsep.
  destruct parts as [|p [|q rest]]; cbn [join].
  - split; auto.
  - split.
    + intros ->. right. reflexivity.
    + intros [H|H]; [discriminate | congruence].
  - split.
    + intros H. apply app_eq_nil in H. destruct H as [_ H].
      apply app_eq_nil in H. destruct H as [H _]. contradiction.
    + intros [H|H]; discriminate.
Qed.

Lemma filter_longer_no_empty (n : nat) (l : list str) :
  filter (longer_than n) l <> [[]].
Proof.
  intros H.
  assert (In [] (filter (longer_than n) l)) as Hin
      by (rewrite H; left; reflexivity).
  apply filter_In in Hin. destruct Hin as [_ Hin].
  apply longer_than_iff in Hin. simpl in Hin. lia.
Qed.

Lemma blank_line_not_nil : blank_line <> [].
Proof. discriminate. Qed.

(** ** When the cascade returns nothing *)

(** The cascade returns the empty string in one situation only: no strategy
    passes the gate, the document has at least one paragraph element, and no
    paragraph has a trimmed text longer than 20 characters.  In every other
    case the content is not empty. *)
Theorem extract_content_empty_iff
        (tbl : case_table) (self : TranscriptExtractor)
        (soup : node) (html_content : str) :
  extract_content tbl self soup html_content = []
  <-> (forall st,
          length (run_strategy tbl self st soup html_content) <= 500)
      /\ select p_selector soup <> []
      /\ filter (longer_than 20)
                (map stripped_text (select p_selector soup)) = [].
Proof.
  unfold extract_content, all_paragraphs_fallback.
  repeat match goal with
         | |- context [passes_gate ?c] =>
             let G := fresh "G" in
             destruct (passes_gate c) eqn:G;
             [apply passes_gate_iff in G | apply passes_gate_false in G]
         end.
  1-6: split;
    [ intros E; rewrite E in *; simpl in *; lia
    | intros [H _];
      first [ specialize (H TranscriptSections); cbn [run_strategy] in H; lia
            | specialize (H ContentContainers); cbn [run_strategy] in H; lia
            | specialize (H HeaderPatterns); cbn [run_strategy] in H; lia
            | specialize (H Scripts); cbn [run_strategy] in H; lia
            | specialize (H PreElements); cbn [run_strategy] in H; lia
            | specialize (H TranscriptPattern); cbn [run_strategy] in H; lia ] ].
  assert (Hall : forall st,
             length (run_strategy tbl self st soup html_content) <= 500)
    by (intros []; cbn [run_strategy]; assumption).
  destruct (select p_selector soup) as [|p ps] eqn:Hp.
  - split; [discriminate | intros [_ [H _]]; contradiction].
  - rewrite (join_nil_iff _ blank_line_not_nil).
    split.
    + intros [H|H]; [|elim (filter_longer_no_empty _ _ H)].
      split; [exact Hall | split; [discriminate | exact H]].
    + intros [_ [_ H]]. left. exact H.
Qed.

(** ** The preformatted-block strategy *)

(** What the preformatted-block strategy returns is either empty or longer
    than 500 characters: a non-empty result always passes the gate of the
    cascade. *)
Theorem extract_from_pre_elements_empty_or_long
        (self : TranscriptExtractor) (soup : node) :
  extract_from_pre_elements self soup = []
  \/ 500 < length (extract_from_pre_elements self soup).
Proof.
  unfold extract_from_pre_elements.
  destruct (filter (longer_than 500)
                   (map stripped_text (select pre_selector soup)))
    as [|t rest] eqn:E; [left; reflexivity | right].
  assert (Hin : In t (filter (longer_than 500)
                        (map stripped_text (select pre_selector soup))))
    by (rewrite E; left; reflexivity).
  apply filter_In in Hin. destruct Hin as [_ Ht].
  apply longer_than_iff in Ht.
  pose proof (join_cons_length blank_line t rest). lia.
Qed.

(** ** The speaker-pattern strategy is empty only below the threshold *)

Lemma speaker_line_length (m : list str) : 2 <= length (speaker_line m).
Proof.
  unfold speaker_line. rewrite !length_app. simpl. lia.
Qed.

(** The speaker-pattern strategy returns the empty string exactly when the
    pattern has 10 matches or fewer: with more matches every line holds at
    least the colon and the space, whatever the matched texts are. *)
Theorem extract_transcript_pattern_empty_iff
        (self : TranscriptExtractor) (html_content : str) :
  extract_transcript_pattern self html_content = []
  <-> length (speaker_matches html_content) <= 10.
Proof.
  unfold extract_transcript_pattern.
  destruct (10 <? length (speaker_matches html_content)) eqn:L.
  - apply Nat.ltb_lt in L.
    split; [|lia].
    intros E.
    destruct (speaker_matches html_content) as [|m ms];
      [simpl in L; lia|].
    cbn [map] in E.
    pose proof (join_cons_length blank_line (speaker_line m)
                                 (map speaker_line ms)) as J.
    rewrite E in J.
    pose proof (speaker_line_length m). simpl in J. lia.
  - apply Nat.ltb_ge in L. split; [intros _; exact L | reflexivity].
Qed.

(** ** What the matcher consumed *)

Lemma rx_lit_inv (A : Type) (ic : bool) (w : str) (r : regex) (s : str)
      (caps : list str) (k : str -> list str -> option A) (v : A) :
  rx ic (lit w r) s caps k = Some v ->
  exists s', rx ic r s' caps k = Some v.
Proof.
  revert s.
  induction w as [|c w IH]; intros s H; cbn [lit] in H.
  - exists s. exact H.
  - cbn [rx] in H.
    destruct s as [|x s]; [discriminate|].
    destruct (cmatch ic (CChar c) x); [|discriminate].
    exact (IH s H).
Qed.

Lemma rep_greedy_inv (A : Type) (ic : bool) (c : cset)
      (k : str -> option A) (s : str) (v : A) :
  rep_greedy ic c k s = Some v ->
  exists u s', s = u ++ s'
               /\ Forall (fun x => cmatch ic c x = true) u
               /\ k s' = Some v.
Proof.
  induction s as [|x s IH]; intros H; cbn [rep_greedy] in H.
  - exists [], []. repeat split; [constructor | exact H].
  - destruct (cmatch ic c x) eqn:Hx.
    + destruct (rep_greedy ic c k s) as [v'|] eqn:R.
      * inversion H; subst v'.
        destruct (IH eq_refl) as [u [s' [-> [Hu Hk]]]].
        exists (x :: u), s'.
        repeat split; [constructor; assumption | exact Hk].
      * exists [], (x :: s). repeat split; [constructor | exact H].
    + exists [], (x :: s). repeat split; [constructor | exact H].
Qed.

(** The value captured by a key-value pattern holds no double quote. *)
Lemma key_value_capture_no_quote (key : str) (s : str)
      (caps : list str) (rest : str) :
  match_here false (key_value_pattern key) s = Some (caps, rest) ->
  ~ In quote (group1 caps).
Proof.
  unfold match_here, key_value_pattern. intros H.
  apply rx_lit_inv in H. destruct H as [s1 H].
  cbn [rx] in H.
  apply rep_greedy_inv in H. destruct H as [_ [s2 [_ [_ H]]]].
  apply rx_lit_inv in H. destruct H as [s3 H].
  cbn [rx] in H.
  apply rep_greedy_inv in H. destruct H as [_ [s4 [_ [_ H]]]].
  apply rx_lit_inv in H. destruct H as [s5 H].
  cbn [rx] in H.
  apply rep_greedy_inv in H. destruct H as [u [s6 [-> [Hu H]]]].
  destruct s6 as [|x s6]; [discriminate|].
  destruct (cmatch false (CChar quote) x); [|discriminate].
  inversion H; subst caps rest.
  cbn [app group1 nth].
  rewrite firstn_length_app.
  intros Hin.
  rewrite Forall_forall in Hu.
  specialize (Hu quote Hin). discriminate Hu.
Qed.

Lemma search_capture_no_quote (key : str) (s : str) (caps : list str) :
  search false (key_value_pattern key) s = Some caps ->
  ~ In quote (group1 caps).
Proof.
  induction s as [|x s IH]; cbn [search]; intros H.
  - destruct (match_here false (key_value_pattern key) [])
      as [[caps' rest]|] eqn:M; [|discriminate].
    inversion H; subst. exact (key_value_capture_no_quote _ _ M).
  - destruct (match_here false (key_value_pattern key) (x :: s))
      as [[caps' rest]|] eqn:M.
    + inversion H; subst. exact (key_value_capture_no_quote _ _ M).
    + exact (IH H).
Qed.

(** ** What [replace] can put into a string *)

Lemma replace_from_chars (old new : str) (skip : nat) (s : str) (c : char) :
  In c (replace_from old new skip s) -> In c s \/ In c new.
Proof.
  revert skip.
  induction s as [|x s IH]; intros skip H; cbn [replace_from] in H.
  - contradiction.
  - destruct skip as [|n].
    + destruct (startswith old (x :: s)).
      * apply in_app_or in H. destruct H as [H|H]; [right; exact H|].
        destruct (IH _ H); [left; right; assumption | right; assumption].
      * destruct H as [<-|H]; [left; left; reflexivity|].
        destruct (IH _ H); [left; right; assumption | right; assumption].
    + destruct (IH _ H); [left; right; assumption | right; assumption].
Qed.

Lemma startswith_in (old s : str) (c : char) :
  startswith old s = true -> In c old -> In c s.
Proof.
  intros H Hc. apply startswith_iff in H. destruct H as [post ->].
  apply in_or_app. left. exact Hc.
Qed.

Lemma replace_from_absent (old new s : str) (c : char) :
  In c old -> ~ In c s -> replace_from old new 0 s = s.
Proof.
  intros Hc.
  induction s as [|x s IH]; intros Hs; [reflexivity|].
  cbn [replace_from].
  destruct (startswith old (x :: s)) eqn:E.
  - elim Hs. exact (startswith_in _ _ c E Hc).
  - f_equal. apply IH. intros H. apply Hs. right. exact H.
Qed.

Lemma unescape_no_quote (s : str) : ~ In quote s -> ~ In quote (unescape s).
Proof.
  intros Hs H. unfold unescape, replace in H.
  rewrite (@replace_from_absent [backslash; quote] [quote] s quote) in H;
    [|right; left; reflexivity | exact Hs].
  apply replace_from_chars in H. destruct H as [H|H]; [exact (Hs H)|].
  destruct H as [H|[]]. discriminate H.
Qed.

(** ** The script strategy never returns a double quote *)

(** The content returned by the script strategy holds no double quote
    character: the captured value has none (the pattern stops at the first
    one), so the replacement of backslash-quote never applies. *)
Theorem extract_from_scripts_no_quote
        (self : TranscriptExtractor) (html_content : str) :
  ~ In quote (extract_from_scripts self html_content)
  /\ forall script m,
      search false content_pattern script = Some m
      \/ search false text_pattern script = Some m ->
      replace [backslash; quote] [quote] (group1 m) = group1 m.
Proof.
  split.
  - unfold extract_from_scripts.
    induction (script_blocks html_content) as [|script rest IH];
      cbn [scripts_loop]; [intros []|].
    destruct (search false json_pattern script); [|exact IH].
    destruct (search false content_pattern script) as [m|] eqn:C.
    + apply unescape_no_quote.
      exact (@search_capture_no_quote (py "content") script m C).
    + destruct (search false text_pattern script) as [m|] eqn:T;
        [|exact IH].
      apply unescape_no_quote.
      exact (@search_capture_no_quote (py "text") script m T).
  - intros script m H.
    apply (@replace_from_absent [backslash; quote] [quote] (group1 m) quote);
      [right; left; reflexivity|].
    destruct H as [H|H];
      [ exact (@search_capture_no_quote (py "content") script m H)
      | exact (@search_capture_no_quote (py "text") script m H) ].
Qed.

(** ** A title selector that never decides *)

Lemma select_nil_weaker (weak strong : selector) (soup : node) :
  (forall n, matches strong n = true -> matches weak n = true) ->
  select weak soup = [] -> select strong soup = [].
Proof.
  unfold select, select_in. intros Himp.
  induction (descendants soup []) as [|e es IH]; cbn [filter];
    [reflexivity|].
  destruct (matches weak (el e)) eqn:W; [discriminate|].
  destruct (matches strong (el e)) eqn:S; [|exact IH].
  rewrite (Himp _ S) in W. discriminate W.
Qed.

(** The second title selector, [h1.title], never decides the title: every
    element it matches is an [h1], and the first selector has already taken
    the first [h1] of the document.  [extract_title] gives the same result
    with the three other selectors alone. *)
Theorem extract_title_second_selector_unused
        (self : TranscriptExtractor) (soup : node) :
  extract_title self soup
  = first_match_text soup
      [ [[SType (py "h1")]];
        [[SAttr (py "data-test-id") (py "post-title")]];
        [[SClass (py "title")]] ]
      (py "Title not found").
Proof.
  unfold extract_title, title_selectors.
  cbn [first_match_text].
  destruct (select_one [[SType (py "h1")]] soup) as [e|] eqn:H1;
    [reflexivity|].
  assert (H1' : select [[SType (py "h1")]] soup = []).
  { unfold select_one in H1.
    destruct (select [[SType (py "h1")]] soup); [reflexivity|discriminate]. }
  unfold select_one at 1.
  rewrite (@select_nil_weaker [[SType (py "h1")]]
             [[SType (py "h1"); SClass (py "title")]] soup);
    [reflexivity| |exact H1'].
  intros n Hn.
  unfold matches, match_compound in *. cbn [existsb forallb] in *.
  rewrite orb_false_r in *.
  apply andb_true_iff in Hn. destruct Hn as [Hn _].
  rewrite Hn. reflexivity.
Qed.

(** ** The metadata extractors return trimmed text *)

Lemma lstrip_fixed (s : str) :
  match s with c :: _ => isspace c = false | [] => True end ->
  lstrip s = s.
Proof.
  destruct s as [|c s]; [reflexivity|].
  intros H. cbn [lstrip]. rewrite H. reflexivity.
Qed.

Lemma lstrip_head (s : str) :
  match lstrip s with c :: _ => isspace c = false | [] => True end.
Proof.
  induction s as [|c s IH]; cbn [lstrip]; [exact I|].
  destruct (isspace c) eqn:E; [exact IH | exact E].
Qed.

Lemma lstrip_suffix (s : str) : exists ws, s = ws ++ lstrip s.
Proof.
  induction s as [|c s [ws IH]]; cbn [lstrip]; [exists []; reflexivity|].
  destruct (isspace c).
  - exists (c :: ws). cbn [app]. f_equal. exact IH.
  - exists []. reflexivity.
Qed.

Lemma lstrip_idempotent (s : str) : lstrip (lstrip s) = lstrip s.
Proof. apply lstrip_fixed, lstrip_head. Qed.

(** A stripped string starts and ends with no whitespace: stripping it again
    changes nothing. *)
Lemma strip_trimmed (s : str) :
  lstrip (strip s) = strip s /\ lstrip (rev (strip s)) = rev (strip s).
Proof.
  unfold strip, rstrip.
  set (t := lstrip s).
  set (q := lstrip (rev t)).
  split.
  - destruct (lstrip_suffix (rev t)) as [ws E]. fold q in E.
    assert (Et : t = rev q ++ rev ws).
    { rewrite <- (rev_involutive t), E, rev_app_distr. reflexivity. }
    apply lstrip_fixed.
    pose proof (lstrip_head s) as Hh. fold t in Hh.
    destruct (rev q) as [|c r] eqn:R; [exact I|].
    rewrite Et in Hh. exact Hh.
  - rewrite rev_involutive. apply lstrip_idempotent.
Qed.

Lemma strip_idempotent (s : str) : strip (strip s) = strip s.
Proof.
  destruct (strip_trimmed s) as [L R].
  unfold strip at 1. unfold rstrip.
  rewrite L, R. apply rev_involutive.
Qed.

Lemma first_match_text_trimmed (soup : node) (sels : list selector)
      (sentinel : str) :
  strip sentinel = sentinel ->
  strip (first_match_text soup sels sentinel)
  = first_match_text soup sels sentinel.
Proof.
  intros Hs.
  induction sels as [|sel rest IH]; cbn [first_match_text]; [exact Hs|].
  destruct (select_one sel soup); [|exact IH].
  apply strip_idempotent.
Qed.

(** Title, date and author come back trimmed: each of the three extractors
    returns a string that [strip] leaves as it is, so it neither starts nor
    ends with a whitespace character, whether it is an element's text or
    the sentinel. *)
Theorem metadata_trimmed (self : TranscriptExtractor) (soup : node) :
  strip (extract_title self soup) = extract_title self soup
  /\ strip (extract_date self soup) = extract_date self soup
  /\ strip (extract_author self soup) = extract_author self soup
  /\ forall r,
      In r [extract_title self soup; extract_date self soup;
            extract_author self soup] ->
      match r with c :: _ => isspace c = false | [] => True end
      /\ match rev r with c :: _ => isspace c = false | [] => True end.
Proof.
  assert (T : strip (extract_title self soup) = extract_title self soup)
    by (apply first_match_text_trimmed; reflexivity).
  assert (D : strip (extract_date self soup) = extract_date self soup)
    by (apply first_match_text_trimmed; reflexivity).
  assert (A : strip (extract_author self soup) = extract_author self soup)
    by (apply first_match_text_trimmed; reflexivity).
  repeat split; try assumption.
  - assert (E : strip r = r)
      by (destruct H as [<-|[<-|[<-|[]]]]; assumption).
    rewrite <- E.
    destruct (strip_trimmed r) as [L _]. rewrite <- L. apply lstrip_head.
  - assert (E : strip r = r)
      by (destruct H as [<-|[<-|[<-|[]]]]; assumption).
    rewrite <- E.
    destruct (strip_trimmed r) as [_ R]. rewrite <- R. apply lstrip_head.
Qed.

(** ** Phrases across a join *)

Lemma occurs_split_char (w a b : str) (c : char) :
  w <> [] -> ~ In c w ->
  occurs_in w (a ++ c :: b) -> occurs_in w a \/ occurs_in w b.
Proof.
  intros Hw Hc [pre [post E]].
  symmetry in E.
  apply app_eq_app in E. destruct E as [l [[E1 E2] | [E1 E2]]].
  - (* the occurrence starts at or after the end of [a] *)
    destruct l as [|x l].
    + cbn [app] in E2. destruct w as [|y w]; [contradiction|].
      inversion E2; subst. elim Hc. left. reflexivity.
    + inversion E2; subst. right. exists l, post. reflexivity.
  - (* the occurrence starts inside [a] *)
    apply app_eq_app in E2. destruct E2 as [l2 [[E3 E4] | [E3 E4]]].
    + destruct l2 as [|x l2].
      * rewrite app_nil_r in E3. subst l.
        left. exists pre, []. rewrite app_nil_r. exact E1.
      * inversion E4; subst. elim Hc.
        apply in_or_app. right. left. reflexivity.
    + left. exists pre, l2. rewrite E1, E3. reflexivity.
Qed.

Lemma occurs_in_nil (w : str) : w <> [] -> ~ occurs_in w [].
Proof.
  intros Hw [pre [post E]].
  destruct pre; [|discriminate E].
  destruct w; [contradiction | discriminate E].
Qed.

Lemma occurs_join (w : str) (parts : list str) :
  w <> [] -> ~ In newline w ->
  occurs_in w (join blank_line parts) ->
  exists p, In p parts /\ occurs_in w p.
Proof.
  intros Hw Hn.
  induction parts as [|p rest IH]; cbn [join].
  - intros H. elim (occurs_in_nil Hw H).
  - destruct rest as [|q rest].
    + intros H. exists p. split; [left; reflexivity | exact H].
    + intros H. unfold blank_line at 1 in H. cbn [app] in H.
      apply occurs_split_char in H; [|exact Hw|exact Hn].
      destruct H as [H|H].
      * exists p. split; [left; reflexivity | exact H].
      * change (newline :: join blank_line (q :: rest))
          with ([] ++ newline :: join blank_line (q :: rest)) in H.
        apply occurs_split_char in H; [|exact Hw|exact Hn].
        destruct H as [H|H].
        -- elim (occurs_in_nil Hw H).
        -- destruct (IH H) as [p' [Hp' Ho]].
           exists p'. split; [right; exact Hp' | exact Ho].
Qed.

(** ** The content-container strategy keeps the boilerplate out *)

Lemma containers_loop_shape (tbl : case_table) (soup : node)
      (sels : list selector) :
  containers_loop tbl soup sels = []
  \/ exists container,
      containers_loop tbl soup sels
      = join blank_line (filtered_paragraphs tbl container).
Proof.
  induction sels as [|sel rest IH]; cbn [containers_loop];
    [left; reflexivity|].
  destruct (select_one sel soup) as [container|]; [|exact IH].
  unfold try_container.
  destruct (premium_message_only container); [exact IH|].
  destruct (filtered_paragraphs tbl container) as [|p ps] eqn:F;
    [exact IH|].
  right. exists container. rewrite F. reflexivity.
Qed.

Lemma denylisted_word (v : str) :
  forallb is_ascii v = true ->
  In (map ascii_lower v) denylist ->
  v <> [] /\ ~ In newline v.
Proof.
  intros Ha Hd. split.
  - intros ->. cbn in Hd. intuition discriminate.
  - intros Hn.
    apply (in_map ascii_lower) in Hn.
    change (ascii_lower newline) with newline in Hn.
    unfold denylist in Hd. cbn [In] in Hd.
    destruct Hd as [E|[E|[E|[E|[E|[E|[E|[]]]]]]]];
      rewrite <- E in Hn; vm_compute in Hn; intuition discriminate.
Qed.

Lemma containers_loop_clean (tbl : case_table) (soup : node)
      (sels : list selector) (v : str) :
  forallb is_ascii v = true ->
  In (map ascii_lower v) denylist ->
  str_in v (containers_loop tbl soup sels) = false.
Proof.
  intros Ha Hd.
  destruct (denylisted_word v Ha Hd) as [Hne Hnl].
  destruct (str_in v (containers_loop tbl soup sels)) eqn:E;
    [|reflexivity].
  apply str_in_iff in E.
  destruct (containers_loop_shape tbl soup sels) as [R | [container R]];
    rewrite R in E.
  - elim (occurs_in_nil Hne E).
  - apply occurs_join in E; [|exact Hne|exact Hnl].
    destruct E as [p [Hp Ho]].
    unfold filtered_paragraphs in Hp.
    apply filter_In in Hp. destruct Hp as [_ Hk].
    apply keeps_paragraph_iff in Hk. destruct Hk as [_ Hk].
    destruct Ho as [pre [post ->]].
    elim (Hk _ Hd). apply lower_occurs. exact Ha.
Qed.

(** The result of the content-container strategy never holds a denylisted
    ASCII phrase, in any mix of capitals and small letters: not "Seeking
    Alpha", not "DISCLOSURE:", not "Make the most of Premium".  The phrases
    cannot appear across two paragraphs either, the paragraphs being joined
    by newlines. *)
Theorem content_containers_clean
        (tbl : case_table) (self : TranscriptExtractor) (soup : node)
        (v : str) :
  forallb is_ascii v = true ->
  In (map ascii_lower v) denylist ->
  str_in v (extract_from_content_containers tbl self soup) = false.
Proof.
  intros Ha Hd. unfold extract_from_content_containers.
  apply containers_loop_clean; assumption.
Qed.

(** ** Content of strategy 2 and the count of [process_directory] *)

Lemma premium_phrase_denylisted :
  forallb is_ascii premium_phrase = true
  /\ In (map ascii_lower premium_phrase) denylist.
Proof.
  split; [reflexivity|].
  do 6 right. left. reflexivity.
Qed.

(** When the cascade returns the result of the content-container strategy,
    [process_directory] counts the file as extracted: the content is longer
    than 500 characters because it passed the gate, and it cannot hold the
    premium phrase because the paragraph filter dropped every paragraph that
    holds it. *)
Theorem content_containers_result_counts
        (tbl : case_table) (self : TranscriptExtractor)
        (soup : node) (html_content : str) :
  fst (value_of (extract_content_logged tbl self soup html_content))
  = FromStrategy ContentContainers ->
  extract_content tbl self soup html_content
  = extract_from_content_containers tbl self soup
  /\ content_is_meaningful (extract_content tbl self soup html_content)
     = true.
Proof.
  unfold extract_content_logged, extract_content, call, bind, ret, value_of.
  cbn [run_strategy].
  destruct (passes_gate (extract_transcript_sections self soup));
    [discriminate|].
  destruct (passes_gate (extract_from_content_containers tbl self soup))
    eqn:G.
  - intros _. split; [reflexivity|].
    unfold content_is_meaningful.
    destruct premium_phrase_denylisted as [Ha Hd].
    rewrite (content_containers_clean tbl self soup _ Ha Hd).
    apply passes_gate_iff in G. apply longer_than_iff in G.
    rewrite G. reflexivity.
  - repeat match goal with
           | |- context [passes_gate ?c] => destruct (passes_gate c)
           end; try discriminate.
    destruct (select p_selector soup); discriminate.
Qed.

(** ** The sibling cascade always returns something *)

(** [extract_transcript_content] of [unified.py] ([extract_content] of
    [transcript-extractor.py]) never returns an empty or very short
    content: the result is longer than 20 characters, be it a strategy's
    result, the filtered paragraphs or the sentinel. *)
Theorem unified_content_never_short
        (tbl : case_table) (soup : node) (html_content : str) :
  20 < length (extract_transcript_content tbl soup html_content).
Proof.
  unfold extract_transcript_content.
  repeat match goal with
         | |- context [passes_gate ?c] =>
             let G := fresh "G" in
             destruct (passes_gate c) eqn:G;
             [apply passes_gate_iff in G; lia|]
         end.
  unfold unified_fallback.
  destruct (select p_selector soup) as [|p ps]; [vm_compute; lia|].
  destruct (filter (keeps_paragraph tbl) (map stripped_text (p :: ps)))
    as [|t rest] eqn:F; [vm_compute; lia|].
  assert (Hin : In t (filter (keeps_paragraph tbl)
                             (map stripped_text (p :: ps))))
    by (rewrite F; left; reflexivity).
  apply filter_In in Hin. destruct Hin as [_ Hk].
  apply keeps_paragraph_iff in Hk. destruct Hk as [Hlen _].
  pose proof (join_cons_length blank_line t rest). lia.
Qed.

(** ** The two completeness tests *)

(** A content that [process_directory] of [html_unified.py] counts as
    extracted is never flagged as incomplete by [extract_single_transcript]
    of [unified.py]: no content passes the first test and fails the
    second. *)
Theorem meaningful_is_complete (content : str) :
  content_is_meaningful content && content_may_be_incomplete content
  = false.
Proof.
  unfold content_is_meaningful, content_may_be_incomplete, longer_than.
  destruct (500 <? length content) eqn:L; [|reflexivity].
  apply Nat.ltb_lt in L.
  destruct (str_in premium_phrase content); [reflexivity|].
  cbn [negb andb].
  rewrite orb_false_r.
  apply Nat.ltb_ge. lia.
Qed.

(** ** File names *)

Lemma safe_title_chars (tbl : alnum_table) (title : str) (c : char) :
  In c (safe_title tbl title) -> isalnum tbl c = true \/ c = underscore.
Proof.
  unfold safe_title. intros H.
  apply in_map_iff in H. destruct H as [x [E _]].
  destruct (isalnum tbl x) eqn:A.
  - left. subst c. exact A.
  - right. symmetry. exact E.
Qed.

Lemma in_firstn (n : nat) (l : str) (c : char) :
  In c (firstn n l) -> In c l.
Proof.
  revert l. induction n as [|n IH]; intros [|x l] H; try contradiction.
  destruct H as [H|H]; [left; exact H | right; exact (IH l H)].
Qed.

Lemma isalnum_underscore (tbl : alnum_table) : isalnum tbl underscore = false.
Proof. reflexivity. Qed.

Lemma safe_title_idempotent (tbl : alnum_table) (title : str) :
  safe_title tbl (safe_title tbl title) = safe_title tbl title.
Proof.
  unfold safe_title. rewrite map_map.
  apply map_ext. intros c.
  destruct (isalnum tbl c) eqn:A; [rewrite A; reflexivity|].
  rewrite isalnum_underscore. reflexivity.
Qed.

(** The file name made from a title has at most 55 characters, keeps the
    length of a title of up to 50 characters, and apart from its [.html]
    ending holds only alphanumeric characters and underscores: no slash, no
    backslash and no other dot, whatever the title is.  Cleaning a cleaned
    title changes nothing. *)
Theorem html_filename_safe (tbl : alnum_table) (title : str) :
  length (html_filename tbl title) = Nat.min 50 (length title) + 5
  /\ (exists stem,
         html_filename tbl title = stem ++ py ".html"
         /\ forall c, In c stem ->
                      (isalnum tbl c = true \/ c = underscore)
                      /\ c <> 47%N /\ c <> 92%N /\ c <> 46%N)
  /\ ~ In 47%N (html_filename tbl title)
  /\ ~ In 92%N (html_filename tbl title)
  /\ safe_title tbl (safe_title tbl title) = safe_title tbl title.
Proof.
  assert (Hstem : forall c, In c (firstn 50 (safe_title tbl title)) ->
                    (isalnum tbl c = true \/ c = underscore)
                    /\ c <> 47%N /\ c <> 92%N /\ c <> 46%N).
  { intros c Hc.
    apply in_firstn, safe_title_chars in Hc.
    split; [exact Hc|].
    destruct Hc as [A | ->];
      [|repeat split; discriminate].
    repeat split; intros ->; discriminate A. }
  split; [|split; [|split; [|split]]].
  - unfold html_filename, safe_title.
    rewrite length_app, length_firstn, length_map. reflexivity.
  - exists (firstn 50 (safe_title tbl title)).
    split; [reflexivity | exact Hstem].
  - unfold html_filename. intros H.
    apply in_app_or in H. destruct H as [H|H].
    + destruct (Hstem _ H) as [_ [N _]]. apply N. reflexivity.
    + vm_compute in H. intuition discriminate.
  - unfold html_filename. intros H.
    apply in_app_or in H. destruct H as [H|H].
    + destruct (Hstem _ H) as [_ [_ [N _]]]. apply N. reflexivity.
    + vm_compute in H. intuition discriminate.
  - apply safe_title_idempotent.
Qed.

(** In [seekingalpha_scraper.py] the [article_<seconds>] name is used for
    the empty title only.  A title without any alphanumeric character is
    not empty after cleaning: it becomes a run of underscores of the same
    length, and that run is the name. *)
Theorem scraper_safe_title_fallback
        (tbl : alnum_table) (stamp : str) (title : str) :
  (scraper_safe_title tbl stamp title = py "article_" ++ stamp
   /\ title = []
   \/ scraper_safe_title tbl stamp title = safe_title tbl title
      /\ title <> [])
  /\ (forallb (fun c => negb (isalnum tbl c)) title = true ->
      title <> [] ->
      scraper_safe_title tbl stamp title
      = repeat underscore (length title)).
Proof.
  unfold scraper_safe_title.
  split.
  - destruct title as [|c title]; [left; split; reflexivity|].
    right. split; [reflexivity | discriminate].
  - intros Hall Hne.
    destruct title as [|c title]; [contradiction|].
    assert (E : forall t, forallb (fun c => negb (isalnum tbl c)) t = true ->
                          safe_title tbl t = repeat underscore (length t)).
    { induction t as [|x t IH]; [reflexivity|].
      cbn [forallb]. intros H.
      apply andb_true_iff in H. destruct H as [Hx Ht].
      apply negb_true_iff in Hx.
      cbn [safe_title map length repeat]. rewrite Hx.
      f_equal. apply IH. exact Ht. }
    rewrite (E _ Hall). reflexivity.
Qed.

(** ** Page addresses *)

Lemma before_char_spec (c : char) (s : str) :
  ~ In c (before_char c s)
  /\ exists rest, s = before_char c s ++ rest
                  /\ (rest = [] \/ exists r, rest = c :: r).
Proof.
  induction s as [|x s [IHn [rest [IHe IHr]]]]; cbn [before_char].
  - split; [intros [] | exists []; split; [reflexivity | left; reflexivity]].
  - destruct (N.eqb_spec x c) as [-> | Hx].
    + split; [intros []|].
      exists (c :: s). split; [reflexivity | right; exists s; reflexivity].
    + split.
      * intros [H|H]; [exact (Hx H) | exact (IHn H)].
      * exists rest. split; [cbn [app]; f_equal; exact IHe | exact IHr].
Qed.

Lemma str_in_char (c : char) (s : str) : str_in [c] s = true <-> In c s.
Proof.
  rewrite str_in_iff. unfold occurs_in. split.
  - intros [pre [post ->]]. apply in_or_app. right. left. reflexivity.
  - intros H. apply in_split in H. destruct H as [pre [post ->]].
    exists pre, post. reflexivity.
Qed.

Lemma uint_digits_are_digits (d : Decimal.uint) (c : char) :
  In c (uint_digits d) -> (48 <= c <= 57)%N.
Proof.
  induction d; cbn [uint_digits]; intros H;
    try contradiction;
    (destruct H as [<-|H]; [lia | exact (IHd H)]).
Qed.

Lemma page_suffix_one_query (n : nat) :
  count_occ N.eq_dec (py "?page=" ++ str_of_nat n) question_mark = 1.
Proof.
  change (py "?page=" ++ str_of_nat n)
    with (question_mark :: py "page=" ++ str_of_nat n).
  rewrite count_occ_cons_eq by reflexivity.
  rewrite count_occ_app.
  assert (D : ~ In question_mark (str_of_nat n)).
  { intros H. apply uint_digits_are_digits in H.
    unfold question_mark in H. lia. }
  apply (count_occ_not_In N.eq_dec) in D.
  change (count_occ N.eq_dec (py "page=") question_mark) with 0.
  cbn [Nat.add]. f_equal. exact D.
Qed.

(** The address of a page is the author address cut before its first
    question mark, followed by [?page=] and the page number: whatever query
    the author address had is dropped, and the page address holds exactly
    one question mark. *)
Theorem page_url_one_query (author_url : str) (current_page : nat) :
  exists base rest,
    author_url = base ++ rest
    /\ ~ In question_mark base
    /\ (rest = [] \/ exists r, rest = question_mark :: r)
    /\ page_url author_url current_page
       = base ++ py "?page=" ++ str_of_nat current_page
    /\ count_occ N.eq_dec (page_url author_url current_page) question_mark
       = 1.
Proof.
  unfold page_url.
  destruct (str_in [question_mark] author_url) eqn:Q.
  - destruct (before_char_spec question_mark author_url)
      as [Hn [rest [He Hr]]].
    exists (before_char question_mark author_url), rest.
    repeat split; try assumption.
    rewrite count_occ_app, page_suffix_one_query.
    apply (count_occ_not_In N.eq_dec) in Hn.
    rewrite Nat.add_1_r. f_equal. exact Hn.
  - assert (Hn : ~ In question_mark author_url).
    { intros H. apply str_in_char in H. congruence. }
    exists author_url, [].
    repeat split; try assumption.
    + symmetry. apply app_nil_r.
    + left. reflexivity.
    + rewrite count_occ_app, page_suffix_one_query.
      apply (count_occ_not_In N.eq_dec) in Hn.
      rewrite Nat.add_1_r. f_equal. exact Hn.
Qed.

(** ** The loop of [process_directory] *)

Lemma process_files_spec
      (tbl : case_table) (BeautifulSoup : str -> node)
      (self : TranscriptExtractor) (html_files : list str) (n : nat) :
  process_files tbl BeautifulSoup self html_files n
  = (map (extract_from_html tbl BeautifulSoup self) html_files,
     n + length (filter (fun r => content_is_meaningful (content r))
                        (map (extract_from_html tbl BeautifulSoup self)
                             html_files))).
Proof.
  revert n.
  induction html_files as [|h rest IH]; intros n; cbn [process_files].
  - cbn. rewrite Nat.add_0_r. reflexivity.
  - rewrite IH. cbn [map filter].
    destruct (content_is_meaningful
                (content (extract_from_html tbl BeautifulSoup self h)));
      cbn [length]; f_equal; lia.
Qed.

(** [process_directory] writes one record per file, in the order of the
    files, and the number it reports as extracted is the number of records
    whose content is longer than 500 characters and free of the premium
    phrase; it never exceeds the number of files. *)
Theorem process_directory_counts
        (tbl : case_table) (BeautifulSoup : str -> node)
        (self : TranscriptExtractor) (html_files : list str) :
  fst (process_directory tbl BeautifulSoup self html_files)
  = map (extract_from_html tbl BeautifulSoup self) html_files
  /\ snd (process_directory tbl BeautifulSoup self html_files)
     = length (filter (fun r => content_is_meaningful (content r))
                      (fst (process_directory tbl BeautifulSoup self
                                              html_files)))
  /\ snd (process_directory tbl BeautifulSoup self html_files)
     <= length html_files.
Proof.
  unfold process_directory. rewrite process_files_spec. cbn [fst snd].
  repeat split.
  rewrite Nat.add_0_l.
  etransitivity; [apply filter_length_le|].
  rewrite length_map. reflexivity.
Qed.

(** ** The added theorems at work *)

Lemma content_containers_clean_witness :
  str_in (py "Seeking Alpha")
         (extract_from_content_containers ascii_case_table an_extractor
                                          long_container_doc) = false
  /\ str_in (py "Seeking Alpha")
            (all_paragraphs_fallback long_container_doc) = true.
Proof.
  split.
  - apply content_containers_clean.
    + reflexivity.
    + do 4 right. left. reflexivity.
  - vm_compute. reflexivity.
Defined.

Lemma content_containers_result_counts_witness :
  extract_content ascii_case_table an_extractor article_doc []
  = long_paragraph
  /\ content_is_meaningful
       (extract_content ascii_case_table an_extractor article_doc [])
     = true.
Proof.
  destruct (@content_containers_result_counts
              ascii_case_table an_extractor article_doc []
              ltac:(vm_compute; reflexivity)) as [E M].
  split; [|exact M].
  rewrite E. vm_compute. reflexivity.
Defined.

(** ** The sibling fallback filters, the fallback of [html_unified.py] does not *)

Lemma sentinel_clean (v : str) :
  forallb is_ascii v = true ->
  In (map ascii_lower v) denylist ->
  str_in v content_failed = false.
Proof.
  intros Ha Hd.
  destruct (str_in v content_failed) eqn:E; [|reflexivity].
  apply str_in_iff in E. destruct E as [pre [post E]].
  pose proof (lower_occurs ascii_case_table v pre post Ha) as L.
  rewrite <- E in L. apply str_in_iff in L.
  unfold denylist in Hd. cbn [In] in Hd.
  destruct Hd as [D|[D|[D|[D|[D|[D|[D|[]]]]]]]];
    rewrite <- D in L; vm_compute in L; discriminate L.
Qed.

(** The last resort of the sibling cascade puts the paragraphs of the
    document through the denylist: what it returns, kept paragraphs or
    sentinel, never holds a denylisted ASCII phrase in any mix of capitals
    and small letters. *)
Theorem unified_fallback_clean (tbl : case_table) (soup : node) (v : str) :
  forallb is_ascii v = true ->
  In (map ascii_lower v) denylist ->
  str_in v (unified_fallback tbl soup) = false.
Proof.
  intros Ha Hd.
  destruct (denylisted_word v Ha Hd) as [Hne Hnl].
  unfold unified_fallback.
  destruct (select p_selector soup) as [|p ps];
    [exact (sentinel_clean v Ha Hd)|].
  destruct (filter (keeps_paragraph tbl) (map stripped_text (p :: ps)))
    as [|t rest] eqn:F; [exact (sentinel_clean v Ha Hd)|].
  destruct (str_in v (join blank_line (t :: rest))) eqn:E; [|reflexivity].
  apply str_in_iff in E.
  apply occurs_join in E; [|exact Hne|exact Hnl].
  destruct E as [q [Hq Ho]].
  rewrite <- F in Hq.
  apply filter_In in Hq. destruct Hq as [_ Hk].
  apply keeps_paragraph_iff in Hk. destruct Hk as [_ Hk].
  destruct Ho as [pre [post ->]].
  elim (Hk _ Hd). apply lower_occurs. exact Ha.
Qed.

Lemma unified_fallback_clean_witness :
  str_in (py "Seeking Alpha")
         (unified_fallback ascii_case_table long_container_doc) = false
  /\ unified_fallback ascii_case_table long_container_doc
     = py "Good morning and welcome to the quarterly call."
          ++ blank_line
          ++ py "Revenue grew eleven percent year over year.".
Proof.
  split.
  - apply unified_fallback_clean.
    + reflexivity.
    + do 4 right. left. reflexivity.
  - vm_compute. reflexivity.
Defined.
